(** * azure_metrics_exporter: the collector and the Azure client of
      [main.go] and the configuration reload of [config/config.go].

    Go strings are byte sequences: they are modelled as [string] (a list of
    8-bit [ascii]).  Integers are [Z], with the int64 wrap-around written
    out where the code can reach it.  float64 values are only ever carried
    from the decoded response to the emitted sample, and are modelled by
    the primitive binary64 floats. *)

From Stdlib Require Import ZArith List String Ascii Bool Lia PrimFloat.
Import ListNotations.
Open Scope string_scope.
Open Scope Z_scope.

Set Implicit Arguments.

(** ** Go strings *)

Module GoString.

Definition byte_of (c : ascii) : Z := Z.of_nat (nat_of_ascii c).

(** [len(s)] *)
Definition len (s : string) : Z := Z.of_nat (String.length s).

(** [s[n:]]; [None] is the run-time panic "slice bounds out of range". *)
Definition slice_from (s : string) (n : Z) : option string :=
  if (n <? 0) || (len s <? n) then None
  else Some (substring (Z.to_nat n) (String.length s - Z.to_nat n) s).

(** [strings.HasPrefix] *)
Definition HasPrefix (s p : string) : bool := prefix p s.

(** [strings.Replace(s, old, new, -1)] for a one-byte [old], which is how
    the program calls it. *)
Fixpoint Replace (s : string) (old : ascii) (new : string) : string :=
  match s with
  | EmptyString => EmptyString
  | String c rest =>
      if Ascii.eqb c old then new ++ Replace rest old new
      else String c (Replace rest old new)
  end.

(** [strings.Join] *)
Fixpoint Join (elems : list string) (sep : string) : string :=
  match elems with
  | [] => ""
  | [e] => e
  | e :: rest => e ++ sep ++ Join rest sep
  end.

(** [strings.Split(s, sep)] for a one-byte [sep]: never empty. *)
Fixpoint Split (s : string) (sep : ascii) : list string :=
  match s with
  | EmptyString => [""]
  | String c rest =>
      if Ascii.eqb c sep then "" :: Split rest sep
      else match Split rest sep with
           | [] => [String c ""]
           | p :: ps => String c p :: ps
           end
  end.

Definition is_upper (c : ascii) : bool :=
  (65 <=? byte_of c) && (byte_of c <=? 90).

Definition lower_byte (c : ascii) : ascii :=
  if is_upper c then ascii_of_nat (nat_of_ascii c + 32) else c.

Fixpoint isASCII (s : string) : bool :=
  match s with
  | EmptyString => true
  | String c rest => (byte_of c <? 128) && isASCII rest
  end.

Fixpoint map_bytes (f : ascii -> ascii) (s : string) : string :=
  match s with
  | EmptyString => EmptyString
  | String c rest => String (f c) (map_bytes f rest)
  end.

(** [strings.ToLower]: byte-wise on an ASCII-only string; otherwise
    [strings.Map(unicode.ToLower, s)], whose Unicode case tables are taken
    as the parameter [unicodeLower]. *)
Definition ToLower (unicodeLower : string -> string) (s : string) : string :=
  if isASCII s then map_bytes lower_byte s else unicodeLower s.

(** Width of the first rune of [s], after [utf8.DecodeRuneInString]:
    an ill-formed sequence decodes as U+FFFD of width 1. *)
Definition in_range (lo hi : Z) (c : ascii) : bool :=
  (lo <=? byte_of c) && (byte_of c <=? hi).

Definition cont (c : ascii) : bool := in_range 128 191 c.

Definition runeWidth (s : string) : nat :=
  match s with
  | EmptyString => 0%nat
  | String s0 t =>
      let b := byte_of s0 in
      (* size and accepted range of the second byte, from utf8's [first] table *)
      let '(sz, lo, hi) :=
        if b <? 194 then (1%nat, 0, 0)
        else if b <? 224 then (2%nat, 128, 191)
        else if b =? 224 then (3%nat, 160, 191)
        else if b =? 237 then (3%nat, 128, 159)
        else if b <? 240 then (3%nat, 128, 191)
        else if b =? 240 then (4%nat, 144, 191)
        else if b <? 244 then (4%nat, 128, 191)
        else if b =? 244 then (4%nat, 128, 143)
        else (1%nat, 0, 0) in
      match sz, t with
      | 1%nat, _ => 1
      | 2%nat, String s1 _ => if in_range lo hi s1 then 2 else 1
      | 3%nat, String s1 (String s2 _) =>
          if in_range lo hi s1 && cont s2 then 3 else 1
      | 4%nat, String s1 (String s2 (String s3 _)) =>
          if in_range lo hi s1 && cont s2 && cont s3 then 4 else 1
      | _, _ => 1
      end%nat
  end.

End GoString.
Import GoString.

(** ** Metric names *)

(** The character class of [invalidMetricChars], "[^a-zA-Z0-9_:]",
    negated: the bytes it leaves alone. *)
Definition validMetricChar (c : ascii) : bool :=
  in_range 97 122 c || in_range 65 90 c || in_range 48 57 c
  || Ascii.eqb c "_" || Ascii.eqb c ":".

(** [invalidMetricChars.ReplaceAllString(s, "_")]: every rune outside the
    class becomes one underscore.  [skip] counts the remaining bytes of a
    multi-byte rune that has already been replaced. *)
Fixpoint replaceInvalid (skip : nat) (s : string) : string :=
  match s with
  | EmptyString => EmptyString
  | String c rest =>
      match skip with
      | S k => replaceInvalid k rest
      | O =>
          if byte_of c <? 128 then
            (if validMetricChar c then String c (replaceInvalid 0 rest)
             else String "_" (replaceInvalid 0 rest))
          else String "_" (replaceInvalid (runeWidth s - 1) rest)
      end
  end.

Definition invalidMetricChars_ReplaceAllString (s : string) : string :=
  replaceInvalid 0 s.

Section MetricName.

Variable unicodeLower : string -> string.

(** main.go, lines 59-62 of [collectResource]. *)
Definition metricNameOf (nameValue unit_ : string) : string :=
  let metricName := Replace nameValue " " "_" in
  let metricName := ToLower unicodeLower (metricName ++ "_" ++ unit_) in
  let metricName := Replace metricName "/" "_per_" in
  let metricName := invalidMetricChars_ReplaceAllString metricName in
  metricName.

End MetricName.

(** ** Time ([time.Time], [time.Duration]) *)

Module time.

Definition wrap64 (z : Z) : Z := (z + 2^63) mod 2^64 - 2^63.

(** A [Time] without monotonic reading ([.UTC()] strips it): seconds since
    January 1, year 1 (an int64) and nanoseconds within the second. *)
Record Time := { sec : Z; nsec : Z }.


(** Durations are int64 nanoseconds. *)
Definition Second : Z := 1000000000.
Definition Minute : Z := 60 * Second.

(** [t.Add(d)].  The seconds are added in int64: [t.ext += d] wraps
    around (later versions of the library saturate instead); the
    properties below are stated where the sum stays in range. *)
Definition Add (t : Time) (d : Z) : Time :=
  let dsec := Z.quot d 1000000000 in
  let ns := nsec t + Z.rem d 1000000000 in
  if ns >=? 1000000000 then
    {| sec := wrap64 (sec t + (dsec + 1)); nsec := ns - 1000000000 |}
  else if ns <? 0 then
    {| sec := wrap64 (sec t + (dsec - 1)); nsec := ns + 1000000000 |}
  else {| sec := wrap64 (sec t + dsec); nsec := ns |}.

(** [t.After(u)] *)
Definition After (t u : Time) : bool :=
  (sec t >? sec u) || ((sec t =? sec u) && (nsec t >? nsec u)).

Definition unixToInternal : Z := 62135596800.

(** [time.Unix(s, 0).UTC()] *)
Definition Unix (s : Z) : Time :=
  {| sec := wrap64 (s + unixToInternal); nsec := 0 |}.



End time.

(** ** Slices and run-time panics *)

(** A Go slice is nil or has elements; [len] and [range] do not tell the
    two apart, [== nil] does. *)
Inductive slice (A : Type) : Type :=
| nil_slice
| mk_slice (l : list A).
Arguments nil_slice {A}.
Arguments mk_slice {A} l.

Definition elems {A} (s : slice A) : list A :=
  match s with nil_slice => [] | mk_slice l => l end.

Definition is_nil {A} (s : slice A) : bool :=
  match s with nil_slice => true | mk_slice _ => false end.

(** What a Go computation comes to: a value, or a run-time panic. *)
Inductive result (A : Type) : Type :=
| Done (a : A)
| Panic (msg : string).
Arguments Done {A} a.
Arguments Panic {A} msg.

(** [s[i]] *)
Definition index {A} (s : slice A) (i : nat) : result A :=
  match nth_error (elems s) i with
  | Some a => Done a
  | None => Panic "index out of range"
  end.

(** [s[len(s)-1]] *)
Definition index_last {A} (s : slice A) : result A :=
  index s (List.length (elems s) - 1).

(** ** Errors

    One constructor for each [fmt.Errorf] format of the program, carrying
    the format's arguments; [Foreign] is an error made by a library. *)
Inductive error : Type :=
| Foreign (msg : string)
| ErrAuthenticating (e : error)      (* "Error authenticating against Azure API: %v" *)
| ErrNot200 (status : Z)             (* "Did not get status code 200, got: %d" *)
| ErrReadingBody (e : error)         (* "Error reading body of response: %v" *)
| ErrUnmarshalling (e : error)       (* "Error unmarshalling response body: %v" *)
| ErrParseInt (e : error)            (* "Error ParseInt of expires_on failed: %v" *)
| ErrRefreshing (e : error)          (* "Error refreshing access token: %v" *)
| ErrCreatingRequest (e : error)     (* "Error creating HTTP request: %v" *)
| ErrDo (e : error)                  (* "Error: %v" *)
| ErrMetricsStatus (status : Z)      (* "Unable to query metrics API with status code: %d" *)
| ErrResourceGroupStatus (status : Z). (* "Unable to query resource group API with status code: %d" *)

(** ** JSON documents and the decoded responses *)

(** A generic JSON value, as [json.Unmarshal] stores it in an
    [interface{}]. *)
#[local] Unset Elimination Schemes.
Inductive json : Type :=
| JNull
| JBool (b : bool)
| JNumber (f : float)
| JString (s : string)
| JArray (l : list json)
| JObject (members : list (string * json)).
#[local] Set Elimination Schemes.

(** [map[string]interface{}]: [None] is the nil map; in the list a later
    binding of a key overrides an earlier one. *)
Definition gomap := option (list (string * json)).

Fixpoint lookup_last (k : string) (m : list (string * json)) : option json :=
  match m with
  | [] => None
  | (k', v) :: rest =>
      match lookup_last k rest with
      | Some v' => Some v'
      | None => if String.eqb k k' then Some v else None
      end
  end.

(** [m[k]]: the zero value, a nil interface, when the key is absent. *)
Definition map_get (m : gomap) (k : string) : json :=
  match m with
  | None => JNull
  | Some l => match lookup_last k l with Some v => v | None => JNull end
  end.

(** [x.(string)], the one-result type assertion. *)
Arguments map_get m k : simpl never.

Definition assert_string (x : json) : result string :=
  match x with
  | JString s => Done s
  | _ => Panic "interface conversion: interface {} is not string"
  end.

(** [json.Unmarshal] into a nil [map[string]interface{}]: null leaves the
    map nil; anything but an object is an UnmarshalTypeError. *)
Definition Unmarshal_map (doc : json) : error + gomap :=
  match doc with
  | JNull => inr None
  | JObject members => inr (Some members)
  | _ => inl (Foreign "json: cannot unmarshal into Go value of type map[string]interface {}")
  end.

(** [AzureMetricValueResponse] and its anonymous structs. *)
Record DataPoint := {
  TimeStamp : string;
  Total : float;
  Average : float;
  Minimum : float;
  Maximum : float }.

Record TimeseriesEntry := { Data : slice DataPoint }.

Record LocalizableString := { LocalizedValue : string; NameValue : string }.

Record MetricValue := {
  Timeseries : slice TimeseriesEntry;
  ID : string;
  Name : LocalizableString;
  Type_ : string;
  Unit : string }.

Record APIErrorT := { Code : string; Message : string }.

Record AzureMetricValueResponse := {
  Value : slice MetricValue;
  APIError : APIErrorT }.

(** [AzureMetricValueResponse{}] *)
Definition zeroMetricValueResponse : AzureMetricValueResponse :=
  {| Value := nil_slice; APIError := {| Code := ""; Message := "" |} |}.

(** The metrics document as the decoder reads it: a member is [None] when
    the document has no such key, or has null there.  Documents with a
    member of the wrong JSON type are not of this type: [json.Unmarshal]
    fails on them (see [Body]). *)
Module Wire.

Record DataPoint := {
  timeStamp : option string;
  total : option float;
  average : option float;
  minimum : option float;
  maximum : option float }.

Record TimeseriesEntry := { data : option (list DataPoint) }.

Record LocalizableString := { localizedValue : option string; value_ : option string }.

Record MetricValue := {
  timeseries : option (list TimeseriesEntry);
  id : option string;
  name : option LocalizableString;
  type : option string;
  unit_ : option string }.

Record APIError := { code : option string; message : option string }.

Record MetricValueResponse := {
  value : option (list MetricValue);
  error_ : option APIError }.

Record Resource := {
  r_id : option string;
  r_name : option string;
  r_type : option string;
  r_managedBy : option string;
  r_location : option string }.

Record ResourceListResponse := { r_value : option (list Resource) }.

End Wire.

(** [json.Unmarshal] of a well-typed document into the zero struct: an
    absent member leaves the zero value of its field. *)
Definition or_empty (o : option string) : string :=
  match o with Some s => s | None => "" end.

Definition or_zero (o : option float) : float :=
  match o with Some f => f | None => 0%float end.

Definition decode_slice {A B} (f : A -> B) (o : option (list A)) : slice B :=
  match o with Some l => mk_slice (map f l) | None => nil_slice end.

Definition decode_DataPoint (w : Wire.DataPoint) : DataPoint :=
  {| TimeStamp := or_empty (Wire.timeStamp w);
     Total := or_zero (Wire.total w);
     Average := or_zero (Wire.average w);
     Minimum := or_zero (Wire.minimum w);
     Maximum := or_zero (Wire.maximum w) |}.

Definition decode_Timeseries (w : Wire.TimeseriesEntry) : TimeseriesEntry :=
  {| Data := decode_slice decode_DataPoint (Wire.data w) |}.

Definition decode_Name (o : option Wire.LocalizableString) : LocalizableString :=
  match o with
  | Some w => {| LocalizedValue := or_empty (Wire.localizedValue w);
                 NameValue := or_empty (Wire.value_ w) |}
  | None => {| LocalizedValue := ""; NameValue := "" |}
  end.

Definition decode_MetricValue (w : Wire.MetricValue) : MetricValue :=
  {| Timeseries := decode_slice decode_Timeseries (Wire.timeseries w);
     ID := or_empty (Wire.id w);
     Name := decode_Name (Wire.name w);
     Type_ := or_empty (Wire.type w);
     Unit := or_empty (Wire.unit_ w) |}.

Definition decode_APIError (o : option Wire.APIError) : APIErrorT :=
  match o with
  | Some w => {| Code := or_empty (Wire.code w); Message := or_empty (Wire.message w) |}
  | None => {| Code := ""; Message := "" |}
  end.

Definition Unmarshal_MetricValueResponse (w : Wire.MetricValueResponse)
  : AzureMetricValueResponse :=
  {| Value := decode_slice decode_MetricValue (Wire.value w);
     APIError := decode_APIError (Wire.error_ w) |}.

(** [AzureResourceListResponse] *)
Record ResourceEntry := {
  Id : string;
  RName : string;
  RType : string;
  ManagedBy : string;
  Location : string }.

Record AzureResourceListResponse := { ListValue : slice ResourceEntry }.

Definition decode_Resource (w : Wire.Resource) : ResourceEntry :=
  {| Id := or_empty (Wire.r_id w);
     RName := or_empty (Wire.r_name w);
     RType := or_empty (Wire.r_type w);
     ManagedBy := or_empty (Wire.r_managedBy w);
     Location := or_empty (Wire.r_location w) |}.

Definition Unmarshal_ResourceListResponse (w : Wire.ResourceListResponse)
  : AzureResourceListResponse :=
  {| ListValue := decode_slice decode_Resource (Wire.r_value w) |}.

(** ** [strconv.ParseInt(s, 10, 64)] *)

Definition is_digit (c : ascii) : bool := in_range 48 57 c.

Fixpoint digits (s : string) (acc : Z) : option Z :=
  match s with
  | EmptyString => Some acc
  | String c rest =>
      if is_digit c then digits rest (acc * 10 + (byte_of c - 48)) else None
  end.

Definition ParseInt (s : string) : error + Z :=
  match s with
  | EmptyString => inl (Foreign "strconv.ParseInt: invalid syntax")
  | String c rest =>
      let '(neg, body) :=
        if Ascii.eqb c "+" then (false, rest)
        else if Ascii.eqb c "-" then (true, rest)
        else (false, s) in
      match body with
      | EmptyString => inl (Foreign "strconv.ParseInt: invalid syntax")
      | _ =>
          match digits body 0 with
          | None => inl (Foreign "strconv.ParseInt: invalid syntax")
          | Some un =>
              let n := if neg then - un else un in
              if (- 2^63 <=? n) && (n <? 2^63) then inr n
              else inl (Foreign "strconv.ParseInt: value out of range")
          end
      end
  end.

Arguments ParseInt s : simpl never.

(** ** Configuration (config/config.go) *)

Module config.

Record Credentials := {
  SubscriptionID : string;
  ClientID : string;
  ClientSecret : string;
  TenantID : string }.

Record Resource := {
  Name : string;
  Metrics : list string;
  Aggregations : list string }.

Record ResourceGroup := {
  GName : string;
  ResourceTypes : list string;
  ResourceInclude : list string;
  ResourceExclude : list string;
  GMetrics : list string;
  GAggregations : list string }.

Record Config := {
  Creds : Credentials;
  Resources : list Resource;
  ResourceGroups : list ResourceGroup }.

(** [&config.Config{}] *)
Definition empty : Config :=
  {| Creds := {| SubscriptionID := ""; ClientID := ""; ClientSecret := ""; TenantID := "" |};
     Resources := [];
     ResourceGroups := [] |}.

Definition validAggregations : list string :=
  ["Total"; "Average"; "Minimum"; "Maximum"].

(** Errors of [Validate], one per format. *)
Inductive verror : Type :=
| InvalidAggregation (a : string)
| ResourceNameMissing
| ResourcePathNotRooted (name : string)
| ResourceMetricsMissing
| GroupNameMissing
| GroupTypesMissing
| GroupMetricsMissing
| BadRegexp (rx : string) (e : string).

(** The inner loop of [validateAggregations]. *)
Fixpoint isValidAggregation (a : string) (valid : list string) : bool :=
  match valid with
  | [] => false
  | v :: rest => if String.eqb a v then true else isValidAggregation a rest
  end.

Fixpoint validateAggregations (aggregations : list string) : option verror :=
  match aggregations with
  | [] => None
  | a :: rest =>
      if negb (isValidAggregation a validAggregations) then Some (InvalidAggregation a)
      else validateAggregations rest
  end.

Section Validate.

(** [regexp.Compile]: the error, if the pattern does not compile. *)
Variable regexp_Compile : string -> option string.

Fixpoint validateRegexps (rxs : list string) : option verror :=
  match rxs with
  | [] => None
  | rx :: rest =>
      match regexp_Compile rx with
      | Some e => Some (BadRegexp rx e)
      | None => validateRegexps rest
      end
  end.

Definition validateResource (t : Resource) : option verror :=
  match validateAggregations (Aggregations t) with
  | Some e => Some e
  | None =>
      if len (Name t) =? 0 then Some ResourceNameMissing
      else if negb (HasPrefix (Name t) "/") then Some (ResourcePathNotRooted (Name t))
      else if (List.length (Metrics t) =? 0)%nat then Some ResourceMetricsMissing
      else None
  end.

Definition validateResourceGroup (t : ResourceGroup) : option verror :=
  match validateAggregations (GAggregations t) with
  | Some e => Some e
  | None =>
      if len (GName t) =? 0 then Some GroupNameMissing
      else if len (GName t) =? 0 then Some GroupTypesMissing
      else if (List.length (GMetrics t) =? 0)%nat then Some GroupMetricsMissing
      else validateRegexps (ResourceInclude t ++ ResourceExclude t)
  end.

(** The two [for] loops of [Validate]: the first error ends them. *)
Fixpoint firstError {A} (check : A -> option verror) (l : list A) : option verror :=
  match l with
  | [] => None
  | t :: rest =>
      match check t with
      | Some e => Some e
      | None => firstError check rest
      end
  end.

Definition Validate (c : Config) : option verror :=
  match firstError validateResource (Resources c) with
  | Some e => Some e
  | None => firstError validateResourceGroup (ResourceGroups c)
  end.

(** *** [SafeConfig] and [ReloadConfig] *)

(** What [ReloadConfig] does to the [SafeConfig], in order. *)
Inductive op : Type :=
| Lock
| Store (c : Config)
| Unlock.

Record SafeConfig := { C : Config; ops : list op }.

Inductive rerror : Type :=
| ErrReading (e : string)       (* "Error reading config file: %s" *)
| ErrParsing (e : string)       (* "Error parsing config file: %s" *)
| ErrValidating (e : verror).   (* "Error validating config file: %s" *)

(** [ioutil.ReadFile] and [yaml.Unmarshal] into a fresh [Config]. *)
Variable ReadFile : string -> string + string.
Variable yaml_Unmarshal : string -> string + Config.

Definition do_op (o : op) (sc : SafeConfig) : SafeConfig :=
  {| C := match o with Store c => c | _ => C sc end; ops := ops sc ++ [o] |}.

Definition ReloadConfig (sc : SafeConfig) (confFile : string)
  : SafeConfig * option rerror :=
  match ReadFile confFile with
  | inl err => (sc, Some (ErrReading err))
  | inr yamlFile =>
      match yaml_Unmarshal yamlFile with
      | inl err => (sc, Some (ErrParsing err))
      | inr c =>
          match Validate c with
          | Some err => (sc, Some (ErrValidating err))
          | None =>
              let sc := do_op Lock sc in
              let sc := do_op (Store c) sc in
              let sc := do_op Unlock sc in
              (sc, None)
          end
      end
  end.

(** *** What [Validate] asks of a configuration *)

Definition validResource (t : Resource) : Prop :=
  Forall (fun a => In a validAggregations) (Aggregations t)
  /\ Name t <> ""
  /\ (exists rest, Name t = String "/" rest)
  /\ Metrics t <> [].

Definition validResourceGroup (t : ResourceGroup) : Prop :=
  Forall (fun a => In a validAggregations) (GAggregations t)
  /\ GName t <> ""
  /\ GMetrics t <> []
  /\ Forall (fun rx => regexp_Compile rx = None)
       (List.app (ResourceInclude t) (ResourceExclude t)).

(** One [ReloadConfig] after the other, whatever each returns. *)
Fixpoint reloads (sc : SafeConfig) (confFiles : list string) : SafeConfig :=
  match confFiles with
  | [] => sc
  | f :: rest => reloads (fst (ReloadConfig sc f)) rest
  end.

End Validate.

End config.

(** ** The Prometheus client library, as far as the collector uses it *)

Definition Labels := list (string * string).

Record Desc := {
  fqName : string;
  help : string;
  constLabels : Labels;
  err : option string }.

Inductive ValueType : Type := CounterValue | GaugeValue | UntypedValue.

Record Metric := {
  desc : Desc;
  valType : ValueType;
  val : float }.

(** ** HTTP *)

Record Request := {
  Method : string;
  URL : string;
  Authorization : string;            (* the "Authorization" header *)
  Query : list (string * string) }.  (* [url.Values], before [Encode] *)

(** A response body is represented by what [ioutil.ReadAll] and
    [json.Unmarshal] make of its bytes, at the type [D] the caller decodes
    it at. *)
Inductive Body (D : Type) : Type :=
| BodyReadError (e : error)
| BodyInvalid (e : error)
| BodyDocument (d : D).
Arguments BodyReadError {D} e.
Arguments BodyInvalid {D} e.
Arguments BodyDocument {D} d.

Record Response (D : Type) := {
  StatusCode : Z;
  RespBody : Body D }.

Definition Form := list (string * list string).

Inductive LogLine : Type :=
| LogFailedToGetMetrics (resource : string) (e : error)
| LogMetricNotFound (metricsStr resource : string)
| LogNoMetricData (metricsStr resource : string)
| LogGET (req : Request).

Inductive Event : Type :=
| EvLog (l : LogLine)
| EvPostForm (target : string) (form : Form)
| EvDo (req : Request).

(** [AzureClient] (the [http.Client] is the environment below). *)
Record AzureClient := {
  accessToken : string;
  accessTokenExpiresOn : time.Time }.


(** ** The collector and the client, over an environment *)

Section Exporter.

(** The world outside the process: the clock and the three endpoints. *)
Variable W : Type.

Record Env := {
  (** [time.Now().UTC()] *)
  time_Now : W -> time.Time * W;
  (** [ac.client.PostForm] to the identity endpoint *)
  client_PostForm : string -> Form -> W -> (error + Response json) * W;
  (** [ac.client.Do] on a metrics request and on a listing request *)
  client_DoMetrics : Request -> W -> (error + Response Wire.MetricValueResponse) * W;
  client_DoList : Request -> W -> (error + Response Wire.ResourceListResponse) * W;
  (** the error of [http.NewRequest(method, url, nil)], if any *)
  http_NewRequest : string -> string -> option error;
  (** [url.QueryEscape] *)
  url_QueryEscape : string -> string;
  (** [strings.Map(unicode.ToLower, s)] *)
  unicodeLower : string -> string;
  (** [regexp.MatchString(pattern, s)] *)
  regexp_MatchString : string -> string -> bool * option error;
  (** the validation of [prometheus.NewDesc]: the [err] of the descriptor *)
  prometheus_checkDesc : string -> string -> Labels -> option string;
  (** The helpers [GetTimes], [CreateResourceLabels] and [hasAggregation]
      are called by the code below and defined in a file that is not part
      of the sources. *)
  GetTimes : W -> (string * string) * W;
  CreateResourceLabels : string -> result Labels;
  hasAggregation : list string -> string -> bool }.

Variable env : Env.

Record State := {
  world : W;
  ac : AzureClient;               (* the global [ac] *)
  sc_C : config.Config;           (* the global [sc.C] *)
  ch : list Metric;               (* what has been sent on [ch], oldest first *)
  trace : list Event }.           (* requests and log lines, oldest first *)

Definition M (A : Type) : Type := State -> result A * State.

Definition ret {A} (a : A) : M A := fun st => (Done a, st).

Definition bind {A B} (c : M A) (k : A -> M B) : M B :=
  fun st =>
    match c st with
    | (Done a, st') => k a st'
    | (Panic msg, st') => (Panic msg, st')
    end.

Notation "x <- c ;; k" := (bind c (fun x => k))
  (at level 61, c at next level, right associativity).
Notation "' p <- c ;; k" := (bind c (fun x => let p := x in k))
  (at level 61, p pattern, c at next level, right associativity).
Notation "c ;;; k" := (bind c (fun _ => k))
  (at level 61, right associativity).

Definition lift {A} (r : result A) : M A := fun st => (r, st).

Definition with_world {A} (f : W -> A * W) : M A :=
  fun st =>
    let '(a, w) := f (world st) in
    (Done a, {| world := w; ac := ac st; sc_C := sc_C st; ch := ch st; trace := trace st |}).

Definition emit (e : Event) : M unit :=
  fun st =>
    (Done tt, {| world := world st; ac := ac st; sc_C := sc_C st; ch := ch st;
                 trace := trace st ++ [e] |}).

Definition log_Printf (l : LogLine) : M unit := emit (EvLog l).

(** [ch <- m] *)
Definition send (m : Metric) : M unit :=
  fun st =>
    (Done tt, {| world := world st; ac := ac st; sc_C := sc_C st; ch := ch st ++ [m];
                 trace := trace st |}).

Definition get_ac : M AzureClient := fun st => (Done (ac st), st).

Definition put_ac (a : AzureClient) : M unit :=
  fun st =>
    (Done tt, {| world := world st; ac := a; sc_C := sc_C st; ch := ch st;
                 trace := trace st |}).

Definition get_config : M config.Config := fun st => (Done (sc_C st), st).

Definition Now : M time.Time := with_world (time_Now env).

Definition PostForm (target : string) (form : Form) : M (error + Response json) :=
  emit (EvPostForm target form) ;;; with_world (client_PostForm env target form).

Definition DoMetrics (req : Request) : M (error + Response Wire.MetricValueResponse) :=
  emit (EvDo req) ;;; with_world (client_DoMetrics env req).

Definition DoList (req : Request) : M (error + Response Wire.ResourceListResponse) :=
  emit (EvDo req) ;;; with_world (client_DoList env req).

(** [for _, x := range l { body }] *)
Fixpoint for_range {A} (l : list A) (body : A -> M unit) : M unit :=
  match l with
  | [] => ret tt
  | x :: rest => body x ;;; for_range rest body
  end.

(** *** The client: [getAccessToken] *)

(** The [target] and the [form] of [getAccessToken]. *)
Definition tokenTarget (c : config.Config) : string :=
  "https://login.microsoftonline.com/" ++ config.TenantID (config.Creds c)
  ++ "/oauth2/token".

Definition tokenForm (c : config.Config) : Form :=
  [ ("grant_type", ["client_credentials"]);
    ("resource", ["https://management.azure.com/"]);
    ("client_id", [config.ClientID (config.Creds c)]);
    ("client_secret", [config.ClientSecret (config.Creds c)]) ].

Definition getAccessToken : M (option error) :=
  c <- get_config ;;
  let target := tokenTarget c in
  let form := tokenForm c in
  r <- PostForm target form ;;
  match r with
  | inl e => ret (Some (ErrAuthenticating e))
  | inr resp =>
      if negb (StatusCode resp =? 200) then ret (Some (ErrNot200 (StatusCode resp)))
      else
        match RespBody resp with
        | BodyReadError e => ret (Some (ErrReadingBody e))
        | BodyInvalid e => ret (Some (ErrUnmarshalling e))
        | BodyDocument doc =>
            match Unmarshal_map doc with
            | inl e => ret (Some (ErrUnmarshalling e))
            | inr data =>
                token <- lift (assert_string (map_get data "access_token")) ;;
                a <- get_ac ;;
                put_ac {| accessToken := token;
                          accessTokenExpiresOn := accessTokenExpiresOn a |} ;;;
                expires <- lift (assert_string (map_get data "expires_on")) ;;
                match ParseInt expires with
                | inl e => ret (Some (ErrParseInt e))
                | inr expiresOn =>
                    a <- get_ac ;;
                    put_ac {| accessToken := accessToken a;
                              accessTokenExpiresOn := time.Unix expiresOn |} ;;;
                    ret None
                end
            end
        end
  end.

(** The test both query functions start with: [now.After(refreshAt)]. *)
Definition needsRefresh (now : time.Time) (a : AzureClient) : bool :=
  let refreshAt := time.Add (accessTokenExpiresOn a) (-10 * time.Minute) in
  time.After now refreshAt.

Definition refreshIfDue : M (option error) :=
  now <- Now ;;
  a <- get_ac ;;
  if needsRefresh now a then getAccessToken else ret None.

(** *** The client: [getMetricValue] *)

(** The request [getMetricValue] builds. *)
Definition metricsRequest (c : config.Config) (a : AzureClient)
  (resource metricNames : string) (aggregations : list string)
  (startTime endTime : string) : Request :=
  let apiVersion := "2018-01-01" in
  let metricsResource :=
    "subscriptions/" ++ config.SubscriptionID (config.Creds c) ++ resource in
  let metricValueEndpoint :=
    "https://management.azure.com/" ++ metricsResource
    ++ "/providers/microsoft.insights/metrics" in
  let values : list (string * string) :=
    List.app
      (if negb (String.eqb metricNames "") then [("metricnames", metricNames)]
       else [])
      [ ("aggregation",
         if (0 <? List.length aggregations)%nat then Join aggregations ","
         else "Total,Average,Minimum,Maximum");
        ("timespan", startTime ++ "/" ++ endTime);
        ("api-version", apiVersion) ] in
  {| Method := "GET"; URL := metricValueEndpoint;
     Authorization := "Bearer " ++ accessToken a;
     Query := values |}.

(** [getMetricValue] from [metricsResource := ...] on. *)
Definition fetchMetricValue (resource metricNames : string) (aggregations : list string)
  : M (AzureMetricValueResponse * option error) :=
  c <- get_config ;;
  ' (endTime, startTime) <- with_world (GetTimes env) ;;
  a <- get_ac ;;
  let req := metricsRequest c a resource metricNames aggregations startTime endTime in
  match http_NewRequest env "GET" (URL req) with
  | Some e => ret (zeroMetricValueResponse, Some (ErrCreatingRequest e))
  | None =>
      log_Printf (LogGET req) ;;;
      r <- DoMetrics req ;;
      match r with
      | inl e => ret (zeroMetricValueResponse, Some (ErrDo e))
      | inr resp =>
          if negb (StatusCode resp =? 200) then
            ret (zeroMetricValueResponse, Some (ErrMetricsStatus (StatusCode resp)))
          else
            match RespBody resp with
            | BodyReadError e => ret (zeroMetricValueResponse, Some (ErrReadingBody e))
            | BodyInvalid e => ret (zeroMetricValueResponse, Some (ErrUnmarshalling e))
            | BodyDocument doc => ret (Unmarshal_MetricValueResponse doc, None)
            end
      end
  end.

Definition getMetricValue (resource metricNames : string) (aggregations : list string)
  : M (AzureMetricValueResponse * option error) :=
  refresh <- refreshIfDue ;;
  match refresh with
  | Some e => ret (zeroMetricValueResponse, Some (ErrRefreshing e))
  | None => fetchMetricValue resource metricNames aggregations
  end.

(** *** The client: [listFromResourceGroup] *)

(** [append(resources, x)] *)
Definition append {A} (s : slice A) (x : A) : slice A :=
  mk_slice (List.app (elems s) [x]).

(** The loop over [data.Value]: [result.Id[subscriotionPrefixLen:]] panics
    on an identifier shorter than the prefix. *)
Fixpoint stripPrefixes (subscription : string) (results : list ResourceEntry)
  (resources : slice string) : result (slice string) :=
  match results with
  | [] => Done resources
  | r :: rest =>
      let subscriotionPrefixLen := len subscription + 1 in
      match slice_from (Id r) subscriotionPrefixLen with
      | Some rel => stripPrefixes subscription rest (append resources rel)
      | None => Panic "slice bounds out of range"
      end
  end.

(** [subscription] in [listFromResourceGroup]. *)
Definition subscriptionOf (c : config.Config) : string :=
  "subscriptions/" ++ config.SubscriptionID (config.Creds c).

(** The request [listFromResourceGroup] builds. *)
Definition listRequest (c : config.Config) (a : AzureClient)
  (resourceGroup : string) (resourceTypes : list string) : Request :=
  let apiVersion := "2018-02-01" in
  let filterTypesElements :=
    map (fun filterType => "resourcetype eq '" ++ filterType ++ "'") resourceTypes in
  let filterTypes := url_QueryEscape env (Join filterTypesElements " or ") in
  let subscription := subscriptionOf c in
  let metricValueEndpoint :=
    "https://management.azure.com/" ++ subscription ++ "/resourceGroups/"
    ++ resourceGroup ++ "/resources?api-version=" ++ apiVersion
    ++ "&$filter=" ++ filterTypes in
  {| Method := "GET"; URL := metricValueEndpoint;
     Authorization := "Bearer " ++ accessToken a;
     Query := [] |}.

(** [listFromResourceGroup] from [var filterTypesElements] on. *)
Definition fetchResourceList (resourceGroup : string) (resourceTypes : list string)
  : M (slice string * option error) :=
  c <- get_config ;;
  a <- get_ac ;;
  let req := listRequest c a resourceGroup resourceTypes in
  match http_NewRequest env "GET" (URL req) with
  | Some e => ret (nil_slice, Some (ErrCreatingRequest e))
  | None =>
      log_Printf (LogGET req) ;;;
      r <- DoList req ;;
      match r with
      | inl e => ret (nil_slice, Some (ErrDo e))
      | inr resp =>
          if negb (StatusCode resp =? 200) then
            ret (nil_slice, Some (ErrResourceGroupStatus (StatusCode resp)))
          else
            match RespBody resp with
            | BodyReadError e => ret (nil_slice, Some (ErrReadingBody e))
            | BodyInvalid e => ret (nil_slice, Some (ErrUnmarshalling e))
            | BodyDocument doc =>
                let data := Unmarshal_ResourceListResponse doc in
                resources <- lift (stripPrefixes (subscriptionOf c)
                                     (elems (ListValue data)) nil_slice) ;;
                ret (resources, None)
            end
      end
  end.

Definition listFromResourceGroup (resourceGroup : string) (resourceTypes : list string)
  : M (slice string * option error) :=
  refresh <- refreshIfDue ;;
  match refresh with
  | Some e => ret (nil_slice, Some (ErrRefreshing e))
  | None => fetchResourceList resourceGroup resourceTypes
  end.

(** *** main.go: [collectResource] *)

(** [prometheus.NewDesc(fqName, help, nil, constLabels)] *)
Definition NewDesc (fqName help : string) (constLabels : Labels) : Desc :=
  {| fqName := fqName; help := help; constLabels := constLabels;
     err := prometheus_checkDesc env fqName help constLabels |}.

(** [prometheus.MustNewConstMetric(desc, valueType, value)] panics on a
    descriptor that carries an error. *)
Definition MustNewConstMetric (d : Desc) (t : ValueType) (v : float) : result Metric :=
  match err d with
  | Some e => Panic e
  | None => Done {| desc := d; valType := t; val := v |}
  end.

(** One of the four [ch <- prometheus.MustNewConstMetric(...)] statements. *)
Definition sendGauge (name : string) (labels : Labels) (v : float) : M unit :=
  m <- lift (MustNewConstMetric (NewDesc name name labels) GaugeValue v) ;;
  send m.

(** The body of the loop over [metricValueData.Value]. *)
Definition collectValue (aggregations : list string) (value : MetricValue) : M unit :=
  let metricName := metricNameOf (unicodeLower env) (NameValue (Name value)) (Unit value) in
  ts0 <- lift (index (Timeseries value) 0) ;;
  metricValue <- lift (index_last (Data ts0)) ;;
  labels <- lift (CreateResourceLabels env (ID value)) ;;
  (if hasAggregation env aggregations "Total"
   then sendGauge (metricName ++ "_total") labels (Total metricValue)
   else ret tt) ;;;
  (if hasAggregation env aggregations "Average"
   then sendGauge (metricName ++ "_average") labels (Average metricValue)
   else ret tt) ;;;
  (if hasAggregation env aggregations "Minimum"
   then sendGauge (metricName ++ "_min") labels (Minimum metricValue)
   else ret tt) ;;;
  (if hasAggregation env aggregations "Maximum"
   then sendGauge (metricName ++ "_max") labels (Maximum metricValue)
   else ret tt).

(** What [collectResource] does with the result of [getMetricValue]. *)
Definition collectResponse (resource metricsStr : string) (aggregations : list string)
  (metricValueData : AzureMetricValueResponse) (e : option error) : M unit :=
  match e with
  | Some e => log_Printf (LogFailedToGetMetrics resource e)
  | None =>
      if is_nil (Value metricValueData) then
        log_Printf (LogMetricNotFound metricsStr resource)
      else
        v0 <- lift (index (Value metricValueData) 0) ;;
        ts0 <- lift (index (Timeseries v0) 0) ;;
        if (List.length (elems (Data ts0)) =? 0)%nat then
          log_Printf (LogNoMetricData metricsStr resource)
        else
          for_range (elems (Value metricValueData)) (collectValue aggregations)
  end.

Definition collectResource (resource metricsStr : string) (aggregations : list string)
  : M unit :=
  r <- getMetricValue resource metricsStr aggregations ;;
  collectResponse resource metricsStr aggregations (fst r) (snd r).

(** *** main.go: [Collect] *)

(** The two pattern loops of [Collect]: the first pattern that matches
    without error ends the loop. *)
Fixpoint matchAny (rxs : list string) (resource_name : string) : bool :=
  match rxs with
  | [] => false
  | rx :: rest =>
      let '(matched, e) := regexp_MatchString env rx resource_name in
      match e with
      | None => if matched then true else matchAny rest resource_name
      | Some _ => matchAny rest resource_name
      end
  end.

(** The body of the loop over the resources of a group. *)
Definition collectGroupResource (target : config.ResourceGroup) (metricsStr : string)
  (resource : string) : M unit :=
  let resource_parts := Split resource "/" in
  resource_name <- lift (index_last (mk_slice resource_parts)) ;;
  if negb (List.length (config.ResourceInclude target) =? 0)%nat
     && negb (matchAny (config.ResourceInclude target) resource_name)
  then ret tt
  else if matchAny (config.ResourceExclude target) resource_name then ret tt
  else collectResource resource metricsStr (config.GAggregations target).

Definition collectGroup (target : config.ResourceGroup) : M unit :=
  let metricsStr := Join (config.GMetrics target) "," in
  r <- listFromResourceGroup (config.GName target) (config.ResourceTypes target) ;;
  match snd r with
  | Some _ => ret tt
  | None => for_range (elems (fst r)) (collectGroupResource target metricsStr)
  end.

Definition Collect : M unit :=
  c <- get_config ;;
  for_range (config.Resources c)
    (fun target =>
       let metricsStr := Join (config.Metrics target) "," in
       collectResource (config.Name target) metricsStr (config.Aggregations target)) ;;;
  c <- get_config ;;
  for_range (config.ResourceGroups c) collectGroup.

End Exporter.

Arguments ret {W A} a _.
Arguments lift {W A} r _.

(** ** The properties' vocabulary *)

(** The four aggregation kinds, with the name the configuration uses, the
    suffix of the emitted metric and the field of the data point. *)
Inductive Kind : Type := KTotal | KAverage | KMinimum | KMaximum.

Definition allKinds : list Kind := [KTotal; KAverage; KMinimum; KMaximum].

Definition Kind_eq_dec (k k' : Kind) : {k = k'} + {k <> k'}.
Proof. decide equality. Defined.

Definition kindName (k : Kind) : string :=
  match k with
  | KTotal => "Total" | KAverage => "Average"
  | KMinimum => "Minimum" | KMaximum => "Maximum"
  end.

Definition suffix (k : Kind) : string :=
  match k with
  | KTotal => "_total" | KAverage => "_average"
  | KMinimum => "_min" | KMaximum => "_max"
  end.

Definition field (k : Kind) (d : DataPoint) : float :=
  match k with
  | KTotal => Total d | KAverage => Average d
  | KMinimum => Minimum d | KMaximum => Maximum d
  end.

(** Whether the response document carries the kind in a data point. *)
Definition present (k : Kind) (w : Wire.DataPoint) : bool :=
  match k with
  | KTotal => match Wire.total w with Some _ => true | None => false end
  | KAverage => match Wire.average w with Some _ => true | None => false end
  | KMinimum => match Wire.minimum w with Some _ => true | None => false end
  | KMaximum => match Wire.maximum w with Some _ => true | None => false end
  end.

(** The most recent data point of an entry: the last element of the data
    of its first time series. *)
Definition lastPoint (e : MetricValue) : option DataPoint :=
  match elems (Timeseries e) with
  | ts :: _ => nth_error (elems (Data ts)) (List.length (elems (Data ts)) - 1)
  | [] => None
  end.

(** Strings all of whose bytes satisfy a test. *)
Fixpoint all_bytes (p : ascii -> bool) (s : string) : bool :=
  match s with
  | EmptyString => true
  | String c rest => p c && all_bytes p rest
  end.

(** The lower-case part of the class of metric name characters. *)
Definition lowerMetricChar (c : ascii) : bool :=
  in_range 97 122 c || in_range 48 57 c || Ascii.eqb c "_" || Ascii.eqb c ":".

(** Bytes below 128 that are no upper-case letters. *)
Definition plainLower (c : ascii) : bool := (byte_of c <? 128) && negb (is_upper c).

Definition notSlash (c : ascii) : bool := negb (Ascii.eqb c "/").

(** [s[n:]] where it is in bounds. *)
Definition from (n : nat) (s : string) : string :=
  substring n (String.length s - n) s.

Section Vocabulary.

Variable W : Type.
Variable env : Env W.

Definition entryName (e : MetricValue) : string :=
  metricNameOf (unicodeLower env) (NameValue (Name e)) (Unit e).

(** The gauge sample of kind [k] for an entry, from data point [d]. *)
Definition sampleOf (e : MetricValue) (labels : Labels) (d : DataPoint) (k : Kind)
  : Metric :=
  {| desc := NewDesc env (entryName e ++ suffix k) (entryName e ++ suffix k) labels;
     valType := GaugeValue;
     val := field k d |}.

(** The kinds [collectResource] is asked for. *)
Definition requested (aggregations : list string) (k : Kind) : bool :=
  hasAggregation env aggregations (kindName k).

(** One sample for each requested kind, none for the others. *)
Definition samplesOf (aggregations : list string) (e : MetricValue) (labels : Labels)
  (d : DataPoint) : list Metric :=
  map (sampleOf e labels d) (filter (requested aggregations) allKinds).

(** An entry the loop of [collectResource] gets through: it has a most
    recent data point, its labels can be made, and the client library
    accepts the descriptors of the requested kinds. *)
Definition collectable (aggregations : list string) (e : MetricValue)
  (labels : Labels) (d : DataPoint) : Prop :=
  lastPoint e = Some d /\
  CreateResourceLabels env (ID e) = Done labels /\
  forall k, requested aggregations k = true ->
            err (desc (sampleOf e labels d k)) = None.

(** A sample that carries the value of the most recent data point of one
    of the entries, under the name of that entry and of a kind. *)
Definition fromLastPoint (entries : list MetricValue) (m : Metric) : Prop :=
  exists e d k,
    In e entries /\ lastPoint e = Some d /\
    val m = field k d /\ valType m = GaugeValue /\
    fqName (desc m) = entryName e ++ suffix k.

(** The leaf name of a resource: its last path segment. *)
Definition leafName (resource : string) : string :=
  List.last (Split resource "/") "".

(** A pattern matches when its evaluation says so and reports no error. *)
Definition matches (rx name : string) : bool :=
  match regexp_MatchString env rx name with
  | (matched, None) => matched
  | (_, Some _) => false
  end.

Definition evalFails (rx name : string) : bool :=
  match snd (regexp_MatchString env rx name) with
  | Some _ => true
  | None => false
  end.

(** The filter of a resource group, in the words of the specification:
    the include list is empty or some include pattern matches the leaf
    name, and no exclude pattern matches it. *)
Definition passesFilters (target : config.ResourceGroup) (resource : string) : bool :=
  (match config.ResourceInclude target with
   | [] => true
   | _ => existsb (fun rx => matches rx (leafName resource)) (config.ResourceInclude target)
   end)
  && negb (existsb (fun rx => matches rx (leafName resource)) (config.ResourceExclude target)).

(** State changes, for stating outcomes. *)
Definition sent_more (ms : list Metric) (st : State W) : State W :=
  {| world := world st; ac := ac st; sc_C := sc_C st;
     ch := List.app (ch st) ms; trace := trace st |}.

Definition is_post (e : Event) : bool :=
  match e with EvPostForm _ _ => true | _ => false end.


(** The samples of a run over the entries: those of each entry, in order. *)
Definition samplesOfEach (aggregations : list string)
  : list MetricValue -> list (list Metric) -> Prop :=
  Forall2 (fun e ms => exists labels d,
               collectable aggregations e labels d /\
               ms = samplesOf aggregations e labels d).

(** *** Properties of computations *)

(** A computation that leaves a component [f] of the state as it is. *)
Definition keeps {A B} (f : State W -> B) (c : M W A) : Prop :=
  forall st, f (snd (c st)) = f st.


(** A computation all of whose samples satisfy [P], however it ends. *)
Definition emits (P : Metric -> Prop) {A} (c : M W A) : Prop :=
  forall st, exists news,
    ch (snd (c st)) = List.app (ch st) news /\ Forall P news.

(** A gauge under a name of metric name characters that ends in the
    suffix of a kind. *)
Definition suffixedGauge (m : Metric) : Prop :=
  valType m = GaugeValue
  /\ all_bytes validMetricChar (fqName (desc m)) = true
  /\ exists base k, fqName (desc m) = base ++ suffix k.

(** A computation that never panics. *)
Definition safe {A} (c : M W A) : Prop :=
  forall st, exists a st', c st = (Done a, st').

(** A computation whose value, when it returns one, satisfies [P]. *)
Definition returns {A} (P : A -> Prop) (c : M W A) : Prop :=
  forall st a st', c st = (Done a, st') -> P a.

(** The requests of a trace carry the bearer token [token]; the identity
    endpoint is not called. *)
Definition carries (token : string) (e : Event) : Prop :=
  match e with
  | EvDo req => Authorization req = "Bearer " ++ token
  | EvPostForm _ _ => False
  | EvLog _ => True
  end.

End Vocabulary.

(** The name mapping in the words of the specification: every space of
    the raw name becomes an underscore; the result, "_" and the unit are
    concatenated and lowercased; every "/" becomes "_per_"; every
    character outside [a-zA-Z0-9_:] becomes "_". *)
Module MapNameSpec.

Definition spacesToUnderscores (s : string) : string :=
  map_bytes (fun c => if Ascii.eqb c " " then "_"%char else c) s.

Fixpoint slashesToPer (s : string) : string :=
  match s with
  | EmptyString => EmptyString
  | String c rest =>
      (if Ascii.eqb c "/" then "_per_" else String c "") ++ slashesToPer rest
  end.

(** The characters (runes) of a string, each as the bytes that encode it. *)
Fixpoint runes_upto (n : nat) (s : string) : list string :=
  match n with
  | O => []
  | S n' =>
      match s with
      | EmptyString => []
      | _ =>
          let w := runeWidth s in
          substring 0 w s :: runes_upto n' (substring w (String.length s - w) s)
      end
  end.

Definition runes (s : string) : list string := runes_upto (String.length s) s.

Definition scrubRune (r : string) : string :=
  match r with
  | String c EmptyString => if validMetricChar c then r else "_"
  | _ => "_"
  end.

Definition scrub (s : string) : string := String.concat "" (map scrubRune (runes s)).

Definition MapName (lower : string -> string) (rawMetricName unit_ : string) : string :=
  scrub (slashesToPer (lower (spacesToUnderscores rawMetricName ++ "_" ++ unit_))).

End MapNameSpec.

(** ** Stand-ins for what is not in the sources, for concrete runs *)

Module Fixture.

(** Modelled from the spec: the helper [hasAggregation], which the sources
    call and do not define.  The specification has the request carry "the
    configured set, or all four kinds if none requested" and the collector
    skip "kinds not requested". *)
Definition hasAggregation_model (aggregations : list string) (aggregation : string)
  : bool :=
  match aggregations with
  | [] => true
  | _ => existsb (String.eqb aggregation) aggregations
  end.

(** [regexp.MatchString] on the patterns the examples use: literal bytes
    with an optional leading "^" and trailing "$", and the pattern "(",
    which does not compile.  Any other pattern is left to [other]. *)
Definition plain (c : ascii) : bool :=
  validMetricChar c || Ascii.eqb c "-" || Ascii.eqb c " ".

Fixpoint all_plain (s : string) : bool :=
  match s with
  | EmptyString => true
  | String c rest => plain c && all_plain rest
  end.

Fixpoint contains (lit s : string) : bool :=
  prefix lit s ||
  match s with
  | EmptyString => false
  | String _ rest => contains lit rest
  end.

Fixpoint hasSuffix (s lit : string) : bool :=
  String.eqb s lit ||
  match s with
  | EmptyString => false
  | String _ rest => hasSuffix rest lit
  end.

(** Splits a trailing "$" off. *)
Fixpoint chopDollar (s : string) : string * bool :=
  match s with
  | EmptyString => ("", false)
  | String c rest =>
      match rest with
      | EmptyString => if Ascii.eqb c "$" then ("", true) else (s, false)
      | _ => let '(b, d) := chopDollar rest in (String c b, d)
      end
  end.

Definition MatchString (other : string -> string -> bool * option error)
  (pattern s : string) : bool * option error :=
  if String.eqb pattern "(" then
    (false, Some (Foreign "error parsing regexp: missing closing )"))
  else
    let '(atStart, p) :=
      match pattern with
      | String "^" rest => (true, rest)
      | _ => (false, pattern)
      end in
    let '(lit, atEnd) := chopDollar p in
    if all_plain lit then
      (match atStart, atEnd with
       | true, true => String.eqb s lit
       | true, false => prefix lit s
       | false, true => hasSuffix s lit
       | false, false => contains lit s
       end, None)
    else other pattern s.

(** [regexp.Compile] on the same patterns: only "(" does not compile. *)
Definition Compile (pattern : string) : option string :=
  if String.eqb pattern "(" then Some "error parsing regexp: missing closing )"
  else None.

(** A world that answers every request with the same canned responses. *)
Record Script := {
  clock : time.Time;
  identity : error + Response json;
  metrics : error + Response Wire.MetricValueResponse;
  listing : error + Response Wire.ResourceListResponse }.

Definition env (other : string -> string -> bool * option error) : Env Script :=
  {| time_Now := fun w => (clock w, w);
     client_PostForm := fun _ _ w => (identity w, w);
     client_DoMetrics := fun _ w => (metrics w, w);
     client_DoList := fun _ w => (listing w, w);
     http_NewRequest := fun _ _ => None;
     url_QueryEscape := fun s => s;
     unicodeLower := fun s => s;
     regexp_MatchString := MatchString other;
     prometheus_checkDesc := fun _ _ _ => None;
     GetTimes := fun w => (("end", "start"), w);
     CreateResourceLabels := fun resourceID => Done [("resource_id", resourceID)];
     hasAggregation := hasAggregation_model |}.

Definition noMatch (pattern s : string) : bool * option error := (false, None).

Definition ok {D} (d : D) : error + Response D :=
  inr {| StatusCode := 200; RespBody := BodyDocument d |}.

Definition status {D} (code : Z) : error + Response D :=
  inr {| StatusCode := code; RespBody := BodyReadError (Foreign "unread") |}.

Definition creds : config.Credentials :=
  {| config.SubscriptionID := "sub-1"; config.ClientID := "client";
     config.ClientSecret := "secret"; config.TenantID := "tenant" |}.

Definition cfg : config.Config :=
  {| config.Creds := creds; config.Resources := []; config.ResourceGroups := [] |}.

(** A state with a token that expires at [expiresOn] (Unix seconds). *)
Definition state (w : Script) (expiresOn : Z) : State Script :=
  {| world := w;
     ac := {| accessToken := "token-0"; accessTokenExpiresOn := time.Unix expiresOn |};
     sc_C := cfg; ch := []; trace := [] |}.

Definition point (t a : option float) : Wire.DataPoint :=
  {| Wire.timeStamp := Some "2018-06-01T10:00:00Z"; Wire.total := t;
     Wire.average := a; Wire.minimum := None; Wire.maximum := None |}.

Definition entry (points : option (list Wire.DataPoint)) : Wire.MetricValue :=
  {| Wire.timeseries := Some [ {| Wire.data := points |} ];
     Wire.id := Some "/subscriptions/sub-1/resourceGroups/g/providers/p/t/vm1";
     Wire.name := Some {| Wire.localizedValue := Some "CPU Percentage";
                          Wire.value_ := Some "CPU Percentage" |};
     Wire.type := Some "Microsoft.Insights/metrics";
     Wire.unit_ := Some "Percent" |}.

Definition document (values : option (list Wire.MetricValue)) : Wire.MetricValueResponse :=
  {| Wire.value := values; Wire.error_ := None |}.

Definition listed (ids : list string) : Wire.ResourceListResponse :=
  {| Wire.r_value :=
       Some (map (fun i => {| Wire.r_id := Some i; Wire.r_name := None;
                              Wire.r_type := None; Wire.r_managedBy := None;
                              Wire.r_location := None |}) ids) |}.

Definition tokenDocument (token expires : string) : json :=
  JObject [("token_type", JString "Bearer"); ("expires_on", JString expires);
           ("access_token", JString token)].

(** A world at Unix time [now], with the given metrics and listing
    responses. *)
Definition worldAt (now : Z)
  (m : error + Response Wire.MetricValueResponse)
  (l : error + Response Wire.ResourceListResponse) : Script :=
  {| clock := time.Unix now;
     identity := ok (tokenDocument "token-1" "1700007200");
     metrics := m; listing := l |}.

Definition group (include exclude : list string) : config.ResourceGroup :=
  {| config.GName := "g"; config.ResourceTypes := ["Microsoft.Compute/virtualMachines"];
     config.ResourceInclude := include; config.ResourceExclude := exclude;
     config.GMetrics := ["Percentage CPU"]; config.GAggregations := ["Average"] |}.

(** The runs the examples below look at. *)
Definition vm : string :=
  "/resourceGroups/g/providers/Microsoft.Compute/virtualMachines/vm1".

Definition plainEnv : Env Script := env noMatch.

(** The token is good for another hour. *)
Definition freshState (values : option (list Wire.MetricValue)) : State Script :=
  state (worldAt 1700000000 (ok (document values)) (status 500)) 1700003600.

Definition collectRun (values : option (list Wire.MetricValue))
  (aggregations : list string) : result unit * State Script :=
  collectResource plainEnv vm "Percentage CPU" aggregations (freshState values).

(** A clock that reads [now] against a token that expires at [expiresOn]. *)
Definition clockState (now expiresOn : Z) : State Script :=
  state (worldAt now (ok (document None)) (ok (listed []))) expiresOn.



Definition site (leaf : string) : string :=
  "/resourceGroups/g/providers/Microsoft.Web/sites/" ++ leaf.

Definition listingState (ids : list string) : State Script :=
  state (worldAt 1700000000 (status 500) (ok (listed ids))) 1700003600.

Definition identityState (r : error + Response json) : State Script :=
  state {| clock := time.Unix 1700000000; identity := r;
           metrics := status 500; listing := status 500 |} 1700000000.

Definition unauthorized : Response json :=
  {| StatusCode := 401; RespBody := BodyReadError (Foreign "unread") |}.

Definition twoPoints : option (list Wire.MetricValue) :=
  Some [entry (Some [point None (Some 1%float); point (Some 3%float) (Some 7.5%float)])].

Definition twoSites : list string :=
  ["/subscriptions/sub-1" ++ site "web-prod"; "/subscriptions/sub-1" ++ site "db-prod"].

Definition webGroup : config.ResourceGroup := group ["^web-"] ["-staging$"].

Definition groupsCfg : config.Config :=
  {| config.Creds := creds; config.Resources := [];
     config.ResourceGroups := [webGroup] |}.

Definition vmResource : config.Resource :=
  {| config.Name := vm; config.Metrics := ["Percentage CPU"];
     config.Aggregations := ["Average"] |}.

Definition resourcesCfg : config.Config :=
  {| config.Creds := creds; config.Resources := [vmResource; vmResource];
     config.ResourceGroups := [webGroup] |}.

(** The configuration has two resources, and the metrics endpoint answers
    with an empty value list. *)
Definition emptyListState : State Script :=
  {| world := worldAt 1700000000 (ok (document (Some []))) (status 500);
     ac := {| accessToken := "token-0"; accessTokenExpiresOn := time.Unix 1700003600 |};
     sc_C := resourcesCfg; ch := []; trace := [] |}.

Definition names (st : State Script) : list (string * float) :=
  map (fun m => (fqName (desc m), val m)) (ch st).

End Fixture.

Unset Implicit Arguments.

(** * Properties *)

(** ** Strings *)

Lemma substring_all (s : string) : substring 0 (String.length s) s = s.
Proof. induction s as [|c s IH]; simpl; [reflexivity | now rewrite IH]. Qed.

Lemma substring_length (s : string) :
  forall n m, (n + m <= String.length s)%nat -> String.length (substring n m s) = m.
Proof.
  induction s as [|c s IH]; intros n m H; simpl in *.
  - destruct n, m; simpl; lia.
  - destruct n as [|n].
    + destruct m as [|m]; simpl; [reflexivity|]. rewrite IH; lia.
    + apply IH. lia.
Qed.

Lemma concat_cons (x : string) (l : list string) :
  String.concat "" (x :: l) = x ++ String.concat "" l.
Proof.
  destruct l as [|y l]; simpl; [|reflexivity].
  induction x as [|c x IH]; simpl; [reflexivity | now rewrite <- IH].
Qed.

Lemma Split_not_nil (s : string) (sep : ascii) : Split s sep <> [].
Proof.
  induction s as [|c s IH]; simpl; [discriminate|].
  destruct (Ascii.eqb c sep); [discriminate|].
  destruct (Split s sep); discriminate.
Qed.

(** ** Name mapping *)

Lemma Replace_space (s : string) :
  Replace s " " "_" = MapNameSpec.spacesToUnderscores s.
Proof.
  unfold MapNameSpec.spacesToUnderscores.
  induction s as [|c s IH]; simpl; [reflexivity|].
  rewrite IH. destruct (Ascii.eqb c " "); reflexivity.
Qed.

Lemma Replace_slash (s : string) :
  Replace s "/" "_per_" = MapNameSpec.slashesToPer s.
Proof.
  induction s as [|c s IH]; simpl; [reflexivity|].
  rewrite IH. destruct (Ascii.eqb c "/"); reflexivity.
Qed.

Lemma runeWidth_bounds (c : ascii) (t : string) :
  (1 <= runeWidth (String c t) <= String.length (String c t))%nat.
Proof.
  unfold runeWidth.
  repeat match goal with
         | |- context [if ?b then _ else _] =>
             lazymatch b with
             | (_ <? _) => destruct b
             | (_ =? _) => destruct b
             end
         end;
    cbv iota beta;
    repeat match goal with
           | |- context [match ?x with EmptyString => _ | String _ _ => _ end] =>
               is_var x; destruct x
           end;
    simpl String.length;
    repeat match goal with
           | |- context [if ?b then _ else _] => destruct b
           end; lia.
Qed.

Lemma runeWidth_ascii (c : ascii) (t : string) :
  (byte_of c <? 128) = true -> runeWidth (String c t) = 1%nat.
Proof.
  intro H. apply Z.ltb_lt in H. unfold runeWidth.
  destruct (byte_of c <? 194) eqn:E; [reflexivity|].
  apply Z.ltb_ge in E. lia.
Qed.

Lemma replaceInvalid_skip (s : string) :
  forall k, (k <= String.length s)%nat ->
    replaceInvalid k s = replaceInvalid 0 (substring k (String.length s - k) s).
Proof.
  induction s as [|c s IH]; intros k Hk.
  - simpl in Hk. assert (k = 0%nat) by lia. subst. reflexivity.
  - destruct k as [|k].
    + rewrite Nat.sub_0_r, substring_all. reflexivity.
    + simpl in Hk. simpl. apply IH. lia.
Qed.

Lemma validMetricChar_ascii (c : ascii) :
  validMetricChar c = true -> (byte_of c <? 128) = true.
Proof.
  unfold validMetricChar, in_range. intro H. apply Z.ltb_lt.
  repeat (apply orb_true_iff in H; destruct H as [H|H]);
    try (apply andb_true_iff in H; destruct H as [H1 H2];
         apply Z.leb_le in H1, H2; lia);
    apply Ascii.eqb_eq in H; subst; reflexivity.
Qed.

Lemma replaceInvalid_runes (n : nat) :
  forall s, (String.length s <= n)%nat ->
    replaceInvalid 0 s
    = String.concat "" (map MapNameSpec.scrubRune (MapNameSpec.runes_upto n s)).
Proof.
  induction n as [|n IH]; intros s Hn.
  - destruct s; [reflexivity | simpl in Hn; lia].
  - destruct s as [|c t]; [reflexivity|].
    pose proof (runeWidth_bounds c t) as Hw.
    cbn [MapNameSpec.runes_upto map]. rewrite concat_cons.
    set (w := runeWidth (String c t)) in *.
    assert (Hrest : substring w (String.length (String c t) - w) (String c t)
                    = substring (w - 1) (String.length t - (w - 1)) t).
    { destruct w as [|w]; [lia|]. simpl. now rewrite Nat.sub_0_r. }
    rewrite <- IH.
    2:{ rewrite substring_length; simpl String.length in *; lia. }
    rewrite Hrest.
    cbn [replaceInvalid].
    destruct (byte_of c <? 128) eqn:Easc.
    + assert (w = 1%nat) by (subst w; now apply runeWidth_ascii). 
      replace w with 1%nat in * by easy.
      cbn [Nat.sub]. rewrite Nat.sub_0_r, substring_all.
      simpl substring. destruct t; simpl substring;
        unfold MapNameSpec.scrubRune; destruct (validMetricChar c); reflexivity.
    + fold w. rewrite (replaceInvalid_skip t) by (simpl String.length in Hw; lia).
      assert (Hs : MapNameSpec.scrubRune (substring 0 w (String c t)) = "_").
      { destruct w as [|w]; [lia|]. simpl substring.
        unfold MapNameSpec.scrubRune.
        destruct (substring 0 w t); [|reflexivity].
        destruct (validMetricChar c) eqn:Ev; [|reflexivity].
        apply validMetricChar_ascii in Ev. congruence. }
      rewrite Hs. reflexivity.
Qed.

Lemma ReplaceAllString_scrub (s : string) :
  invalidMetricChars_ReplaceAllString s = MapNameSpec.scrub s.
Proof.
  unfold invalidMetricChars_ReplaceAllString, MapNameSpec.scrub, MapNameSpec.runes.
  apply replaceInvalid_runes. lia.
Qed.

(** C2: the derived metric name is the name mapping of the specification,
    step by step (spaces of the raw name to underscores, the name, "_" and
    the unit lowercased together, "/" to "_per_", every character outside
    [a-zA-Z0-9_:] to "_"); being a function of the raw name and the unit it
    is deterministic, and "CPU Percentage" with "Percent" gives
    "cpu_percentage_percent". *)
Theorem metricNameOf_MapName :
  forall (unicodeLower : string -> string),
    (forall rawMetricName unit_ : string,
        metricNameOf unicodeLower rawMetricName unit_
        = MapNameSpec.MapName (ToLower unicodeLower) rawMetricName unit_)
    /\ metricNameOf unicodeLower "CPU Percentage" "Percent" = "cpu_percentage_percent".
Proof.
  intro ul. split; [|reflexivity].
  intros raw u. unfold metricNameOf, MapNameSpec.MapName.
  now rewrite ReplaceAllString_scrub, Replace_slash, Replace_space.
Qed.

(** ** Running the monad *)

Section Runs.

Variable W : Type.
Variable env : Env W.

Lemma bind_run {A B} (c : M W A) (k : A -> M W B) (st : State W) :
  bind c k st
  = match c st with
    | (Done a, st') => k a st'
    | (Panic msg, st') => (Panic msg, st')
    end.
Proof. reflexivity. Qed.

Lemma bind_done {A B} (c : M W A) (k : A -> M W B) (st : State W)
  {st' : State W} {a : A} :
  c st = (Done a, st') -> bind c k st = k a st'.
Proof. intro H. rewrite bind_run, H. reflexivity. Qed.

Lemma bind_panic {A B} (c : M W A) (k : A -> M W B) (st : State W)
  {st' : State W} {msg : string} :
  c st = (Panic msg, st') -> bind c k st = (Panic msg, st').
Proof. intro H. rewrite bind_run, H. reflexivity. Qed.

Lemma keeps_bind {A B C} (f : State W -> C) (c : M W A) (k : A -> M W B) :
  keeps f c -> (forall a, keeps f (k a)) -> keeps f (bind c k).
Proof.
  intros Hc Hk st. rewrite bind_run. specialize (Hc st).
  destruct (c st) as [[a|msg] st']; simpl in *; [|assumption].
  now rewrite Hk.
Qed.

Lemma keeps_ret {A B} (f : State W -> B) (a : A) : keeps f (ret a).
Proof. intro st. reflexivity. Qed.

Lemma keeps_lift {A B} (f : State W -> B) (r : result A) : keeps f (lift r).
Proof. intro st. reflexivity. Qed.

Lemma keeps_get_ac {B} (f : State W -> B) : keeps f (@get_ac W).
Proof. intro st. reflexivity. Qed.

Lemma keeps_get_config {B} (f : State W -> B) : keeps f (@get_config W).
Proof. intro st. reflexivity. Qed.

Lemma ch_with_world {A} (g : W -> A * W) : keeps (@ch W) (with_world g).
Proof. intro st. unfold with_world. destruct (g (world st)). reflexivity. Qed.

Lemma ch_emit (e : Event) : keeps (@ch W) (emit e).
Proof. intro st. reflexivity. Qed.

Lemma ch_put_ac (a : AzureClient) : keeps (@ch W) (put_ac a).
Proof. intro st. reflexivity. Qed.

Lemma trace_with_world {A} (g : W -> A * W) : keeps (@trace W) (with_world g).
Proof. intro st. unfold with_world. destruct (g (world st)). reflexivity. Qed.

Lemma trace_put_ac (a : AzureClient) : keeps (@trace W) (put_ac a).
Proof. intro st. reflexivity. Qed.

Lemma cfg_with_world {A} (g : W -> A * W) : keeps (@sc_C W) (with_world g).
Proof. intro st. unfold with_world. destruct (g (world st)). reflexivity. Qed.

Lemma cfg_emit (e : Event) : keeps (@sc_C W) (emit e).
Proof. intro st. reflexivity. Qed.

Lemma cfg_put_ac (a : AzureClient) : keeps (@sc_C W) (put_ac a).
Proof. intro st. reflexivity. Qed.

Lemma ac_with_world {A} (g : W -> A * W) : keeps (@ac W) (with_world g).
Proof. intro st. unfold with_world. destruct (g (world st)). reflexivity. Qed.

Lemma ac_emit (e : Event) : keeps (@ac W) (emit e).
Proof. intro st. reflexivity. Qed.

Lemma ac_send (m : Metric) : keeps (@ac W) (send m).
Proof. intro st. reflexivity. Qed.

Create HintDb keeps discriminated.
#[local] Hint Resolve keeps_ret keeps_lift keeps_get_ac keeps_get_config
  ch_with_world ch_emit ch_put_ac trace_with_world trace_put_ac
  cfg_with_world cfg_emit cfg_put_ac ac_with_world ac_emit ac_send : keeps.

(** Splits a computation along its binds and case distinctions. *)
Ltac split_run :=
  repeat first
    [ progress cbv zeta
    | apply keeps_bind; [|intros ?]
    | match goal with
      | |- keeps _ (match ?x with _ => _ end) => destruct x
      | |- keeps _ (if ?x then _ else _) => destruct x
      end ].

Ltac keeps_auto := split_run; try unfold Now; auto with keeps.

Lemma ch_getAccessToken : keeps (@ch W) (getAccessToken env).
Proof. unfold getAccessToken, PostForm. keeps_auto. Qed.

Lemma cfg_getAccessToken : keeps (@sc_C W) (getAccessToken env).
Proof. unfold getAccessToken, PostForm. keeps_auto. Qed.

Lemma ch_refreshIfDue : keeps (@ch W) (refreshIfDue env).
Proof. unfold refreshIfDue, Now. keeps_auto. Qed.

Lemma ch_getMetricValue resource metricNames aggregations :
  keeps (@ch W) (getMetricValue env resource metricNames aggregations).
Proof.
  unfold getMetricValue, fetchMetricValue, DoMetrics, log_Printf.
  keeps_auto.
Qed.

Lemma ch_listFromResourceGroup resourceGroup resourceTypes :
  keeps (@ch W) (listFromResourceGroup env resourceGroup resourceTypes).
Proof.
  unfold listFromResourceGroup, fetchResourceList, DoList, log_Printf.
  keeps_auto.
Qed.

(** ** The token *)










Lemma trace_getAccessToken (st : State W) :
  trace (snd (getAccessToken env st))
  = List.app (trace st) [EvPostForm (tokenTarget (sc_C st)) (tokenForm (sc_C st))].
Proof.
  unfold getAccessToken. rewrite bind_run. simpl. cbv zeta. rewrite bind_run.
  unfold PostForm. rewrite bind_run. simpl. unfold with_world. simpl.
  destruct (client_PostForm env (tokenTarget (sc_C st)) (tokenForm (sc_C st)) (world st))
    as [r w]. simpl.
  match goal with
  | |- trace (snd (?k ?s)) = _ =>
      assert (K : keeps (@trace W) k); [|rewrite K; reflexivity]
  end.
  keeps_auto.
Qed.

Lemma refreshIfDue_trace (st : State W) :
  trace (snd (refreshIfDue env st))
  = List.app (trace st)
      (if needsRefresh (fst (time_Now env (world st))) (ac st)
       then [EvPostForm (tokenTarget (sc_C st)) (tokenForm (sc_C st))] else []).
Proof.
  unfold refreshIfDue, Now. rewrite bind_run. unfold with_world.
  destruct (time_Now env (world st)) as [now w]. simpl.
  rewrite bind_run. simpl.
  destruct (needsRefresh now (ac st)).
  - rewrite trace_getAccessToken. reflexivity.
  - simpl. now rewrite app_nil_r.
Qed.

Lemma cfg_refreshIfDue : keeps (@sc_C W) (refreshIfDue env).
Proof. unfold refreshIfDue. keeps_auto. Qed.





(** ** The collector *)

Lemma sent_more_nil (st : State W) : sent_more [] st = st.
Proof. destruct st. unfold sent_more. simpl. now rewrite app_nil_r. Qed.

Lemma sent_more_app (l1 l2 : list Metric) (st : State W) :
  sent_more l2 (sent_more l1 st) = sent_more (List.app l1 l2) st.
Proof. unfold sent_more. simpl. now rewrite app_assoc. Qed.

Lemma lastPoint_inv (e : MetricValue) (d : DataPoint) :
  lastPoint e = Some d ->
  exists ts, index (Timeseries e) 0 = Done ts /\ index_last (Data ts) = Done d
             /\ elems (Data ts) <> [].
Proof.
  unfold lastPoint, index, index_last, index. intro H.
  destruct (elems (Timeseries e)) as [|ts rest]; [discriminate|].
  exists ts. simpl. rewrite H. repeat split.
  intro E. rewrite E in H. discriminate.
Qed.

Lemma sendGauge_run (name : string) (labels : Labels) (v : float) (st : State W) :
  prometheus_checkDesc env name name labels = None ->
  sendGauge env name labels v st
  = (Done tt, sent_more [ {| desc := NewDesc env name name labels;
                             valType := GaugeValue; val := v |} ] st).
Proof.
  intro H. unfold sendGauge, MustNewConstMetric. simpl. rewrite H. reflexivity.
Qed.

(** One block [if hasAggregation(...) { ch <- ... }] of the loop body. *)
Lemma block_run (aggregations : list string) (e : MetricValue) (labels : Labels)
  (d : DataPoint) (k : Kind) (st : State W) :
  (requested env aggregations k = true -> err (desc (sampleOf env e labels d k)) = None) ->
  (if hasAggregation env aggregations (kindName k)
   then sendGauge env (entryName env e ++ suffix k) labels (field k d)
   else ret tt) st
  = (Done tt, sent_more (map (sampleOf env e labels d)
                           (filter (requested env aggregations) [k])) st).
Proof.
  intro H. unfold requested in *. simpl.
  destruct (hasAggregation env aggregations (kindName k)).
  - rewrite sendGauge_run; [reflexivity | now apply H].
  - simpl. now rewrite sent_more_nil.
Qed.

Lemma collectValue_run (aggregations : list string) (e : MetricValue)
  (labels : Labels) (d : DataPoint) (st : State W) :
  collectable env aggregations e labels d ->
  collectValue env aggregations e st
  = (Done tt, sent_more (samplesOf env aggregations e labels d) st).
Proof.
  intros [Hd [Hl Hok]]. destruct (lastPoint_inv e d Hd) as [ts [Hts [Hlast _]]].
  unfold collectValue. cbv zeta. fold (entryName env e).
  rewrite Hts. rewrite (bind_done _ _ st (st':=st) (a:=ts)) by reflexivity.
  rewrite Hlast. rewrite (bind_done _ _ st (st':=st) (a:=d)) by reflexivity.
  rewrite Hl. rewrite (bind_done _ _ st (st':=st) (a:=labels)) by reflexivity.
  rewrite (bind_done _ _ _ (block_run aggregations e labels d KTotal st (Hok KTotal))).
  rewrite (bind_done _ _ _ (block_run aggregations e labels d KAverage _ (Hok KAverage))).
  rewrite (bind_done _ _ _ (block_run aggregations e labels d KMinimum _ (Hok KMinimum))).
  rewrite (block_run aggregations e labels d KMaximum _ (Hok KMaximum)).
  rewrite !sent_more_app. unfold samplesOf, allKinds.
  rewrite <- !map_app. repeat f_equal. simpl.
  destruct (requested env aggregations KTotal),
    (requested env aggregations KAverage),
    (requested env aggregations KMinimum),
    (requested env aggregations KMaximum); reflexivity.
Qed.

Lemma for_range_collect (aggregations : list string) (entries : list MetricValue) :
  (forall e, In e entries -> exists labels d, collectable env aggregations e labels d) ->
  forall st, exists samples,
    for_range entries (collectValue env aggregations) st
    = (Done tt, sent_more (List.concat samples) st)
    /\ samplesOfEach env aggregations entries samples.
Proof.
  induction entries as [|e rest IH]; intros H st.
  - exists []. simpl. rewrite sent_more_nil. split; [reflexivity | constructor].
  - destruct (H e (or_introl eq_refl)) as [labels [d Hc]].
    destruct (IH (fun e' He' => H e' (or_intror He'))
                (sent_more (samplesOf env aggregations e labels d) st))
      as [samples [Hrun Hall]].
    exists (samplesOf env aggregations e labels d :: samples). split.
    + cbn [for_range].
      rewrite (bind_done _ _ _ (collectValue_run aggregations e labels d st Hc)).
      rewrite Hrun, sent_more_app. reflexivity.
    + constructor; [|assumption]. exists labels, d. split; [assumption | reflexivity].
Qed.

Lemma suffix_injective (k k' : Kind) : suffix k = suffix k' -> k = k'.
Proof. destruct k, k'; simpl; intro H; try reflexivity; discriminate. Qed.

(** Every requested kind is taken once, every other kind not at all. *)
Lemma each_requested_kind_once (aggregations : list string) (k : Kind) :
  count_occ Kind_eq_dec (filter (requested env aggregations) allKinds) k
  = if requested env aggregations k then 1%nat else 0%nat.
Proof.
  unfold allKinds. simpl.
  destruct (requested env aggregations KTotal) eqn:E1,
    (requested env aggregations KAverage) eqn:E2,
    (requested env aggregations KMinimum) eqn:E3,
    (requested env aggregations KMaximum) eqn:E4;
    destruct k; simpl; rewrite ?E1, ?E2, ?E3, ?E4; reflexivity.
Qed.

(** C1, amended: when the metrics query succeeds and every entry of the
    decoded response has a most recent data point (and its labels and
    descriptors are accepted), [collectResource] sends, for each entry in
    order, exactly one gauge sample for each of the four kinds that
    [hasAggregation] grants for the requested list, and none for the
    others; the sample of a kind is named with the suffix of that kind and
    valued with the field of that kind in the decoded data point, whether
    or not the response document carried that field. *)
Theorem one_sample_per_requested_kind (st st1 : State W)
  (resource metricsStr : string) (aggregations : list string)
  (data : AzureMetricValueResponse) :
  getMetricValue env resource metricsStr aggregations st = (Done (data, None), st1) ->
  elems (Value data) <> [] ->
  (forall e, In e (elems (Value data)) ->
             exists labels d, collectable env aggregations e labels d) ->
  exists samples,
    collectResource env resource metricsStr aggregations st
    = (Done tt, sent_more (List.concat samples) st1)
    /\ samplesOfEach env aggregations (elems (Value data)) samples.
Proof.
  intros Hget Hne Hall.
  destruct (for_range_collect aggregations _ Hall st1) as [samples [Hrun Hs]].
  exists samples. split; [|assumption].
  unfold collectResource. rewrite (bind_done _ _ _ Hget). simpl fst. simpl snd.
  unfold collectResponse.
  destruct (Value data) as [|entries] eqn:Ev; [now elim Hne|].
  simpl in Hne, Hall, Hrun |- *.
  destruct entries as [|e0 rest]; [now elim Hne|].
  destruct (Hall e0 (or_introl eq_refl)) as [labels [d [Hd _]]].
  destruct (lastPoint_inv e0 d Hd) as [ts [Hts [_ Hdata]]].
  rewrite (bind_done _ _ st1 (st':=st1) (a:=e0)) by reflexivity.
  rewrite Hts. rewrite (bind_done _ _ st1 (st':=st1) (a:=ts)) by reflexivity.
  destruct (elems (Data ts)) as [|p ps] eqn:Ed; [now elim Hdata|].
  simpl. exact Hrun.
Qed.

Lemma emits_keeps (P : Metric -> Prop) {A} (c : M W A) :
  keeps (@ch W) c -> emits P c.
Proof. intros H st. exists []. rewrite H, app_nil_r. split; [reflexivity | constructor]. Qed.

Lemma emits_bind (P : Metric -> Prop) {A B} (c : M W A) (k : A -> M W B) :
  emits P c -> (forall a, emits P (k a)) -> emits P (bind c k).
Proof.
  intros Hc Hk st. rewrite bind_run. destruct (Hc st) as [n1 [H1 P1]].
  destruct (c st) as [[a|msg] st']; simpl in *.
  - destruct (Hk a st') as [n2 [H2 P2]]. exists (List.app n1 n2).
    rewrite H2, H1, <- app_assoc. split; [reflexivity | now apply Forall_app].
  - exists n1. split; assumption.
Qed.

Lemma emits_bind_lift (P : Metric -> Prop) {A B} (r : result A) (k : A -> M W B) :
  (forall a, r = Done a -> emits P (k a)) -> emits P (bind (lift r) k).
Proof.
  intros Hk st. rewrite bind_run. unfold lift. destruct r as [a|msg].
  - exact (Hk a eq_refl st).
  - exists []. simpl. rewrite app_nil_r. split; [reflexivity | constructor].
Qed.

Lemma emits_send (P : Metric -> Prop) (m : Metric) : P m -> emits P (send (W:=W) m).
Proof. intros H st. exists [m]. split; [reflexivity | now constructor]. Qed.

Lemma emits_for_range (P : Metric -> Prop) {A} (l : list A) (body : A -> M W unit) :
  (forall x, In x l -> emits P (body x)) -> emits P (for_range l body).
Proof.
  induction l as [|x rest IH]; intro H; simpl.
  - apply emits_keeps. auto with keeps.
  - apply emits_bind; [apply H; now left | intros _; apply IH].
    intros y Hy. apply H. now right.
Qed.

Lemma emits_sendGauge (P : Metric -> Prop) (name : string) (labels : Labels) (v : float) :
  P {| desc := NewDesc env name name labels; valType := GaugeValue; val := v |} ->
  emits P (sendGauge env name labels v).
Proof.
  intro H. unfold sendGauge. apply emits_bind_lift. intros m Hm.
  unfold MustNewConstMetric in Hm.
  destruct (err (NewDesc env name name labels)); inversion Hm; subst.
  now apply emits_send.
Qed.

Lemma lastPoint_of_index (e : MetricValue) (ts : TimeseriesEntry) (d : DataPoint) :
  index (Timeseries e) 0 = Done ts -> index_last (Data ts) = Done d ->
  lastPoint e = Some d.
Proof.
  unfold lastPoint, index_last, index. 
  destruct (elems (Timeseries e)) as [|ts0 rest]; simpl; [discriminate|].
  intro H. inversion H; subst.
  destruct (nth_error _ _); [|discriminate]. intro H1. now inversion H1.
Qed.

Lemma emits_collectValue (entries : list MetricValue) (aggregations : list string)
  (e : MetricValue) :
  In e entries ->
  emits (fromLastPoint env entries) (collectValue env aggregations e).
Proof.
  intro He. unfold collectValue. cbv zeta. fold (entryName env e).
  apply emits_bind_lift. intros ts Hts.
  apply emits_bind_lift. intros d Hd.
  apply emits_bind_lift. intros labels _.
  pose proof (lastPoint_of_index e ts d Hts Hd) as Hlast.
  assert (Hk : forall k,
             emits (fromLastPoint env entries)
               (if hasAggregation env aggregations (kindName k)
                then sendGauge env (entryName env e ++ suffix k) labels (field k d)
                else ret tt)).
  { intro k. destruct (hasAggregation env aggregations (kindName k)).
    - apply emits_sendGauge. exists e, d, k. repeat split; assumption.
    - apply emits_keeps. auto with keeps. }
  apply emits_bind; [exact (Hk KTotal) | intros _].
  apply emits_bind; [exact (Hk KAverage) | intros _].
  apply emits_bind; [exact (Hk KMinimum) | intros _].
  exact (Hk KMaximum).
Qed.

Lemma emits_collectResponse (resource metricsStr : string) (aggregations : list string)
  (data : AzureMetricValueResponse) (e : option error) :
  emits (fromLastPoint env (elems (Value data)))
    (collectResponse env resource metricsStr aggregations data e).
Proof.
  unfold collectResponse, log_Printf.
  destruct e; [apply emits_keeps; auto with keeps|].
  destruct (is_nil (Value data)); [apply emits_keeps; auto with keeps|].
  apply emits_bind_lift. intros v0 _. apply emits_bind_lift. intros ts0 _.
  destruct (List.length (elems (Data ts0)) =? 0)%nat;
    [apply emits_keeps; auto with keeps|].
  apply emits_for_range. intros x Hx. now apply emits_collectValue.
Qed.

(** C7: whatever [getMetricValue] returns and however the loop ends, every
    sample [collectResource] sends is a gauge under the name of an entry of
    the response and of a kind, and its value is the field of that kind in
    the last element of the data of the first time series of that entry. *)
Theorem samples_carry_last_point (st st1 : State W)
  (resource metricsStr : string) (aggregations : list string)
  (data : AzureMetricValueResponse) (e : option error) :
  getMetricValue env resource metricsStr aggregations st = (Done (data, e), st1) ->
  exists news,
    ch (snd (collectResource env resource metricsStr aggregations st))
    = List.app (ch st) news
    /\ Forall (fromLastPoint env (elems (Value data))) news.
Proof.
  intro Hget. unfold collectResource. rewrite (bind_done _ _ _ Hget). simpl fst. simpl snd.
  destruct (emits_collectResponse resource metricsStr aggregations data e st1)
    as [news [H P]].
  exists news. split; [|assumption].
  rewrite H. f_equal.
  pose proof (ch_getMetricValue resource metricsStr aggregations st) as K.
  rewrite Hget in K. exact K.
Qed.

(** The three ways [collectResource] deals with a response that has
    nothing to report. *)
Lemma nil_value_no_samples (resource metricsStr : string) (aggregations : list string)
  (data : AzureMetricValueResponse) (st : State W) :
  Value data = nil_slice ->
  collectResponse env resource metricsStr aggregations data None st
  = log_Printf (LogMetricNotFound metricsStr resource) st.
Proof. intro H. unfold collectResponse. rewrite H. reflexivity. Qed.

Lemma no_data_no_samples (resource metricsStr : string) (aggregations : list string)
  (data : AzureMetricValueResponse) (v0 : MetricValue) (rest : list MetricValue)
  (ts0 : TimeseriesEntry) (tss : list TimeseriesEntry) (st : State W) :
  Value data = mk_slice (v0 :: rest) ->
  elems (Timeseries v0) = ts0 :: tss ->
  elems (Data ts0) = [] ->
  collectResponse env resource metricsStr aggregations data None st
  = log_Printf (LogNoMetricData metricsStr resource) st.
Proof.
  intros Hv Ht Hd. unfold collectResponse. rewrite Hv. simpl.
  rewrite (bind_done _ _ st (st':=st) (a:=v0)) by reflexivity.
  unfold index. rewrite Ht. simpl.
  rewrite (bind_done _ _ st (st':=st) (a:=ts0)) by reflexivity.
  rewrite Hd. reflexivity.
Qed.

Lemma empty_value_panics (resource metricsStr : string) (aggregations : list string)
  (data : AzureMetricValueResponse) (st : State W) :
  Value data = mk_slice [] ->
  collectResponse env resource metricsStr aggregations data None st
  = (Panic "index out of range", st).
Proof. intro H. unfold collectResponse. rewrite H. reflexivity. Qed.

(** ** The filter of a resource group *)

Lemma matchAny_existsb (rxs : list string) (name : string) :
  matchAny env rxs name = existsb (fun rx => matches env rx name) rxs.
Proof.
  induction rxs as [|rx rest IH]; simpl; [reflexivity|].
  unfold matches at 1.
  destruct (regexp_MatchString env rx name) as [matched [e|]]; simpl.
  - exact IH.
  - destruct matched; [reflexivity | exact IH].
Qed.




Lemma nth_error_last {A} (l : list A) (d : A) :
  l <> [] -> nth_error l (List.length l - 1) = Some (List.last l d).
Proof.
  induction l as [|x l IH]; intro H; [now elim H|].
  destruct l as [|y l]; [reflexivity|].
  assert (Hy : y :: l <> []) by discriminate.
  specialize (IH Hy).
  replace (List.length (x :: y :: l) - 1)%nat with (S (List.length (y :: l) - 1))
    by (simpl; lia).
  exact IH.
Qed.

Lemma index_last_Split (resource : string) :
  index_last (mk_slice (Split resource "/")) = Done (leafName resource).
Proof.
  unfold index_last, index, leafName. simpl elems.
  now rewrite (nth_error_last _ "" (Split_not_nil resource "/")).
Qed.

Lemma collectGroupResource_filter (target : config.ResourceGroup)
  (metricsStr resource : string) (st : State W) :
  collectGroupResource env target metricsStr resource st
  = if passesFilters env target resource
    then collectResource env resource metricsStr (config.GAggregations target) st
    else (Done tt, st).
Proof.
  unfold collectGroupResource, passesFilters. cbv zeta.
  rewrite index_last_Split.
  rewrite (bind_done _ _ st (st':=st) (a:=leafName resource)) by reflexivity.
  rewrite !matchAny_existsb.
  destruct (config.ResourceInclude target) as [|rx rxs]; simpl.
  - destruct (existsb _ (config.ResourceExclude target)); reflexivity.
  - destruct (matches env rx (leafName resource) || existsb _ rxs); simpl;
      [|reflexivity].
    destruct (existsb _ (config.ResourceExclude target)); reflexivity.
Qed.

Lemma for_range_ext {A} (l : list A) (f g : A -> M W unit) :
  (forall x st, f x st = g x st) -> forall st, for_range l f st = for_range l g st.
Proof.
  intro H. induction l as [|x rest IH]; intro st; simpl; [reflexivity|].
  rewrite !bind_run, H. destruct (g x st) as [[[]|msg] st']; [apply IH | reflexivity].
Qed.

(** ** The listing *)

Lemma slice_from_app (p r : string) : slice_from (p ++ r) (len p) = Some r.
Proof.
  unfold slice_from, len.
  assert (L : String.length (p ++ r) = (String.length p + String.length r)%nat).
  { induction p as [|c p IH]; simpl; [reflexivity | now rewrite IH]. }
  rewrite L, Nat2Z.id.
  destruct (Z.of_nat (String.length p) <? 0) eqn:E1; [apply Z.ltb_lt in E1; lia|].
  destruct (Z.of_nat (String.length p + String.length r) <? Z.of_nat (String.length p))
    eqn:E2; [apply Z.ltb_lt in E2; lia|].
  simpl. f_equal.
  replace (String.length p + String.length r - String.length p)%nat
    with (String.length r) by lia.
  clear L E1 E2.
  induction p as [|c p IH]; simpl; [apply substring_all | exact IH].
Qed.

Lemma stripPrefixes_ok (subscription : string) (rels : list string) :
  forall (results : list ResourceEntry) (resources : slice string),
    map Id results = map (fun rel => "/" ++ subscription ++ rel) rels ->
    results <> [] ->
    stripPrefixes subscription results resources
    = Done (mk_slice (List.app (elems resources) rels)).
Proof.
  induction rels as [|rel rels IH]; intros results resources H Hne.
  - destruct results; [now elim Hne | discriminate].
  - destruct results as [|r results]; [discriminate|].
    simpl in H. inversion H as [[Hid Hrest]]. cbn [stripPrefixes].
    assert (Hs : slice_from (Id r) (len subscription + 1) = Some rel).
    { rewrite Hid.
      replace (len subscription + 1) with (len ("/" ++ subscription))
        by (unfold len; simpl String.length; lia).
      exact (slice_from_app ("/" ++ subscription) rel). }
    rewrite Hs.
    destruct results as [|r' results'].
    + destruct rels; [|discriminate]. reflexivity.
    + rewrite (IH (r' :: results') _ Hrest) by discriminate.
      unfold append. simpl elems. now rewrite <- app_assoc.
Qed.

Lemma listing_run (st1 : State W) (resourceGroup : string) (resourceTypes : list string)
  (doc : Wire.ResourceListResponse) (w' : W) (rels : list string) :
  let req := listRequest env (sc_C st1) (ac st1) resourceGroup resourceTypes in
  http_NewRequest env "GET" (URL req) = None ->
  client_DoList env req (world st1)
  = (inr {| StatusCode := 200; RespBody := BodyDocument doc |}, w') ->
  map Id (elems (ListValue (Unmarshal_ResourceListResponse doc)))
  = map (fun rel => "/" ++ subscriptionOf (sc_C st1) ++ rel) rels ->
  exists resources st2,
    fetchResourceList env resourceGroup resourceTypes st1 = (Done (resources, None), st2)
    /\ elems resources = rels.
Proof.
  intros req Hreq Hdo Hids. subst req. unfold fetchResourceList.
  rewrite (bind_done _ _ st1 (st':=st1) (a:=sc_C st1)) by reflexivity.
  rewrite (bind_done _ _ st1 (st':=st1) (a:=ac st1)) by reflexivity.
  cbv zeta. rewrite Hreq.
  unfold log_Printf, DoList, bind, emit, with_world, lift, ret.
  cbn [world]. rewrite Hdo. cbn [StatusCode RespBody sc_C].
  change (negb (200 =? 200)) with false. cbv iota.
  destruct (elems (ListValue (Unmarshal_ResourceListResponse doc))) as [|r rs] eqn:E.
  - destruct rels; [|discriminate]. simpl. eexists _, _. split; reflexivity.
  - rewrite (stripPrefixes_ok _ rels (r :: rs) nil_slice Hids) by discriminate.
    simpl. eexists _, _. split; reflexivity.
Qed.

End Runs.

(** ** The filter and the listing, for every environment *)

(** C5: a resource of a group is handed to [collectResource] exactly when
    the include list is empty or an include pattern matches its leaf name,
    and no exclude pattern matches it; otherwise nothing is done for it.
    With include "^web-" and exclude "-staging$", "web-staging" is dropped,
    "web-prod" is kept and "db-prod" is dropped. *)
Theorem collected_iff_passes_filters :
  (forall (W : Type) (env : Env W) (target : config.ResourceGroup)
          (metricsStr resource : string) (st : State W),
      collectGroupResource env target metricsStr resource st
      = if passesFilters env target resource
        then collectResource env resource metricsStr (config.GAggregations target) st
        else (Done tt, st))
  /\ (forall other,
         let env := Fixture.env other in
         let target := Fixture.group ["^web-"] ["-staging$"] in
         passesFilters env target (Fixture.site "web-staging") = false
         /\ passesFilters env target (Fixture.site "web-prod") = true
         /\ passesFilters env target (Fixture.site "db-prod") = false).
Proof.
  split.
  - intros. apply collectGroupResource_filter.
  - intro other. repeat split; reflexivity.
Qed.


(** C8: when the token step goes through and the listing answers 200 with
    N identifiers that begin with "/subscriptions/<subscription-id>",
    [listFromResourceGroup] returns the N identifiers without that prefix,
    in order; and for a group with empty include and exclude lists
    [collectGroup] hands each of the N to [collectResource]. *)
Theorem listing_strips_subscription_prefix :
  forall (W : Type) (env : Env W) (target : config.ResourceGroup)
         (st st1 : State W) (doc : Wire.ResourceListResponse) (w' : W)
         (rels : list string),
    config.ResourceInclude target = [] ->
    config.ResourceExclude target = [] ->
    refreshIfDue env st = (Done None, st1) ->
    let req := listRequest env (sc_C st1) (ac st1) (config.GName target)
                 (config.ResourceTypes target) in
    http_NewRequest env "GET" (URL req) = None ->
    client_DoList env req (world st1)
    = (inr {| StatusCode := 200; RespBody := BodyDocument doc |}, w') ->
    map Id (elems (ListValue (Unmarshal_ResourceListResponse doc)))
    = map (fun rel => "/" ++ subscriptionOf (sc_C st1) ++ rel) rels ->
    exists resources st2,
      listFromResourceGroup env (config.GName target) (config.ResourceTypes target) st
      = (Done (resources, None), st2)
      /\ elems resources = rels
      /\ List.length (elems resources)
         = List.length (elems (ListValue (Unmarshal_ResourceListResponse doc)))
      /\ collectGroup env target st
         = for_range rels
             (fun resource =>
                collectResource env resource (Join (config.GMetrics target) ",")
                  (config.GAggregations target)) st2.
Proof.
  intros W env target st st1 doc w' rels Hin Hex Href req Hreq Hdo Hids.
  destruct (listing_run W env st1 (config.GName target) (config.ResourceTypes target)
              doc w' rels Hreq Hdo Hids) as [resources [st2 [Hrun Hel]]].
  assert (Hlist : listFromResourceGroup env (config.GName target)
                    (config.ResourceTypes target) st = (Done (resources, None), st2)).
  { unfold listFromResourceGroup. rewrite (bind_done _ _ _ _ Href). exact Hrun. }
  exists resources, st2. repeat split; try assumption.
  - rewrite Hel. rewrite <- (length_map Id), Hids, length_map. reflexivity.
  - unfold collectGroup. cbv zeta. rewrite (bind_done _ _ _ _ Hlist).
    cbv beta. cbn [fst snd].
    rewrite Hel. apply for_range_ext. intros x s.
    rewrite collectGroupResource_filter. unfold passesFilters.
    rewrite Hin, Hex. reflexivity.
Qed.

(** ** The configuration reload *)

(** C10: [ReloadConfig] returns an error exactly when the file cannot be
    read, cannot be parsed or fails validation, and then it leaves the
    [SafeConfig] as it was (nothing stored, no lock taken); otherwise it
    returns nil after locking, storing the validated configuration as a
    whole and unlocking, in this order. *)
Theorem ReloadConfig_atomic :
  forall (regexp_Compile : string -> option string)
         (ReadFile : string -> string + string)
         (yaml_Unmarshal : string -> string + config.Config)
         (sc : config.SafeConfig) (confFile : string),
    match config.ReloadConfig regexp_Compile ReadFile yaml_Unmarshal sc confFile with
    | (sc', Some e) =>
        sc' = sc /\
        ((exists r, ReadFile confFile = inl r /\ e = config.ErrReading r)
         \/ (exists yamlFile r, ReadFile confFile = inr yamlFile /\
                                yaml_Unmarshal yamlFile = inl r /\ e = config.ErrParsing r)
         \/ (exists yamlFile c v, ReadFile confFile = inr yamlFile /\
                                  yaml_Unmarshal yamlFile = inr c /\
                                  config.Validate regexp_Compile c = Some v /\
                                  e = config.ErrValidating v))
    | (sc', None) =>
        exists yamlFile c,
          ReadFile confFile = inr yamlFile /\
          yaml_Unmarshal yamlFile = inr c /\
          config.Validate regexp_Compile c = None /\
          config.C sc' = c /\
          config.ops sc' = List.app (config.ops sc)
                             [config.Lock; config.Store c; config.Unlock]
    end.
Proof.
  intros rc rf yu sc f. unfold config.ReloadConfig.
  destruct (rf f) as [r|y] eqn:Er.
  - split; [reflexivity|]. left. now exists r.
  - destruct (yu y) as [r|c] eqn:Ey.
    + split; [reflexivity|]. right. left. now exists y, r.
    + destruct (config.Validate rc c) as [v|] eqn:Ev.
      * split; [reflexivity|]. right. right. now exists y, c, v.
      * exists y, c. repeat split; try assumption.
        unfold config.do_op. simpl. now rewrite <- !app_assoc.
Qed.

(** ** Concrete runs *)

Example metricNameOf_unit_with_slash :
  forall lower,
    metricNameOf lower "Network In" "Bytes/Second" = "network_in_bytes_per_second".
Proof. reflexivity. Qed.

(** The scrubbing leaves a leading digit, which is no valid first
    character of a metric name. *)
Example metricNameOf_leading_digit :
  forall lower, metricNameOf lower "5xx Errors" "Count" = "5xx_errors_count".
Proof. reflexivity. Qed.

(** C3: a 200 response whose document has an empty top-level value list
    makes [collectResource] panic with nothing sent: the empty list is
    not nil, and the first entry is indexed. *)
Theorem empty_value_list_panics :
  exists st',
    Fixture.collectRun (Some []) ["Average"] = (Panic "index out of range", st')
    /\ ch st' = [].
Proof. eexists. split; reflexivity. Qed.

(** Where the value list is absent, or the first series has no data
    points, nothing is sent and the call returns. *)
Example absent_value_list_returns :
  exists st', Fixture.collectRun None ["Average"] = (Done tt, st') /\ ch st' = [].
Proof. eexists. split; reflexivity. Qed.

Example first_series_without_data_returns :
  exists st',
    Fixture.collectRun (Some [Fixture.entry (Some [])]) ["Average"] = (Done tt, st')
    /\ ch st' = [].
Proof. eexists. split; reflexivity. Qed.

(** An entry without data points after the first one is reached by the
    loop, which panics on it; the samples of the entries before it have
    been sent. *)
Example later_entry_without_data_panics :
  exists st',
    Fixture.collectRun
      (Some [Fixture.entry (Some [Fixture.point None (Some 2.5%float)]);
             Fixture.entry (Some [])])
      ["Average"]
    = (Panic "index out of range", st')
    /\ Fixture.names st' = [("cpu_percentage_percent_average", 2.5%float)].
Proof. eexists. split; reflexivity. Qed.

(** The value sent is that of the last data point. *)
Example last_point_wins :
  exists st',
    Fixture.collectRun
      (Some [Fixture.entry (Some [Fixture.point None (Some 1%float);
                                   Fixture.point None (Some 7.5%float)])])
      ["Average"]
    = (Done tt, st')
    /\ Fixture.names st' = [("cpu_percentage_percent_average", 7.5%float)].
Proof. eexists. split; reflexivity. Qed.

(** C1, as stated, fails: "Total" is requested and the data point of the
    response carries no total; a sample "_total" is sent all the same,
    with the zero value of the field. *)
Lemma absent_kind_is_sent :
  present KTotal (Fixture.point None (Some 1.5%float)) = false
  /\ exists st',
       Fixture.collectRun
         (Some [Fixture.entry (Some [Fixture.point None (Some 1.5%float)])])
         ["Total"; "Average"]
       = (Done tt, st')
       /\ Fixture.names st' = [("cpu_percentage_percent_total", 0%float);
                               ("cpu_percentage_percent_average", 1.5%float)].
Proof. split; [reflexivity|]. eexists. split; reflexivity. Qed.


Example refresh_five_minutes_before_expiry :
  let st := Fixture.clockState 1700000000 1700000300 in
  hd_error (trace (snd (getMetricValue Fixture.plainEnv Fixture.vm "Percentage CPU" [] st)))
  = Some (EvPostForm (tokenTarget Fixture.cfg) (tokenForm Fixture.cfg))
  /\ ac (snd (getMetricValue Fixture.plainEnv Fixture.vm "Percentage CPU" [] st))
     = {| accessToken := "token-1"; accessTokenExpiresOn := time.Unix 1700007200 |}.
Proof. split; reflexivity. Qed.

Example no_refresh_fifteen_minutes_before_expiry :
  let st := Fixture.clockState 1700000000 1700000900 in
  existsb is_post
    (trace (snd (getMetricValue Fixture.plainEnv Fixture.vm "Percentage CPU" [] st)))
  = false.
Proof. reflexivity. Qed.


(** An identifier shorter than the subscription prefix makes
    [listFromResourceGroup] panic. *)
Example short_identifier_panics :
  fst (listFromResourceGroup Fixture.plainEnv "g" [] (Fixture.listingState ["/x"]))
  = Panic "slice bounds out of range".
Proof. reflexivity. Qed.

(** A 200 answer of the identity endpoint whose object lacks the token
    makes [getAccessToken] panic. *)
Example token_document_without_token_panics :
  fst (getAccessToken Fixture.plainEnv
         (Fixture.identityState (Fixture.ok (JObject [("error", JString "invalid_client")]))))
  = Panic "interface conversion: interface {} is not string".
Proof. reflexivity. Qed.

(** ** Instances of the theorems that have hypotheses *)

(** C1: the theorem at a response of one entry with two data points, for
    the request of "Total" and "Average". *)
Lemma one_sample_per_requested_kind_witness :
  (getMetricValue Fixture.plainEnv Fixture.vm "Percentage CPU" ["Total"; "Average"]
     (Fixture.freshState Fixture.twoPoints)
   = (Done (Unmarshal_MetricValueResponse (Fixture.document Fixture.twoPoints), None),
      snd (getMetricValue Fixture.plainEnv Fixture.vm "Percentage CPU" ["Total"; "Average"]
             (Fixture.freshState Fixture.twoPoints)))
   /\ elems (Value (Unmarshal_MetricValueResponse (Fixture.document Fixture.twoPoints)))
      <> [])
  /\ exists samples,
       Fixture.collectRun Fixture.twoPoints ["Total"; "Average"]
       = (Done tt,
          sent_more (List.concat samples)
            (snd (getMetricValue Fixture.plainEnv Fixture.vm "Percentage CPU"
                    ["Total"; "Average"] (Fixture.freshState Fixture.twoPoints))))
       /\ samplesOfEach Fixture.plainEnv ["Total"; "Average"]
            (elems (Value (Unmarshal_MetricValueResponse
                             (Fixture.document Fixture.twoPoints))))
            samples.
Proof.
  split; [split; [reflexivity | discriminate]|].
  apply (one_sample_per_requested_kind Fixture.Script Fixture.plainEnv
           (Fixture.freshState Fixture.twoPoints)).
  - reflexivity.
  - discriminate.
  - intros e [He|[]]. subst e.
    exists [("resource_id", "/subscriptions/sub-1/resourceGroups/g/providers/p/t/vm1")].
    exists (decode_DataPoint (Fixture.point (Some 3%float) (Some 7.5%float))).
    split; [reflexivity|]. split; [reflexivity|]. intros k _. reflexivity.
Defined.



(** C7: the theorem at a response of one entry with two data points. *)
Lemma samples_carry_last_point_witness :
  getMetricValue Fixture.plainEnv Fixture.vm "Percentage CPU" ["Average"]
    (Fixture.freshState Fixture.twoPoints)
  = (Done (Unmarshal_MetricValueResponse (Fixture.document Fixture.twoPoints), None),
     snd (getMetricValue Fixture.plainEnv Fixture.vm "Percentage CPU" ["Average"]
            (Fixture.freshState Fixture.twoPoints)))
  /\ exists news,
       ch (snd (Fixture.collectRun Fixture.twoPoints ["Average"]))
       = List.app (ch (Fixture.freshState Fixture.twoPoints)) news
       /\ Forall (fromLastPoint Fixture.plainEnv
                    (elems (Value (Unmarshal_MetricValueResponse
                                     (Fixture.document Fixture.twoPoints)))))
            news.
Proof.
  split; [reflexivity|].
  apply (samples_carry_last_point Fixture.Script Fixture.plainEnv
           (Fixture.freshState Fixture.twoPoints)
           (snd (getMetricValue Fixture.plainEnv Fixture.vm "Percentage CPU" ["Average"]
                   (Fixture.freshState Fixture.twoPoints)))
           Fixture.vm "Percentage CPU" ["Average"]
           (Unmarshal_MetricValueResponse (Fixture.document Fixture.twoPoints)) None).
  reflexivity.
Defined.

(** C8: the theorem at a listing of two identifiers. *)
Lemma listing_strips_subscription_prefix_witness :
  (refreshIfDue Fixture.plainEnv (Fixture.listingState Fixture.twoSites)
   = (Done None, Fixture.listingState Fixture.twoSites)
   /\ map Id (elems (ListValue (Unmarshal_ResourceListResponse
                                  (Fixture.listed Fixture.twoSites))))
      = map (fun rel => "/" ++ subscriptionOf Fixture.cfg ++ rel)
          [Fixture.site "web-prod"; Fixture.site "db-prod"])
  /\ exists resources st2,
       listFromResourceGroup Fixture.plainEnv "g" ["Microsoft.Compute/virtualMachines"]
         (Fixture.listingState Fixture.twoSites)
       = (Done (resources, None), st2)
       /\ elems resources = [Fixture.site "web-prod"; Fixture.site "db-prod"]
       /\ List.length (elems resources) = 2%nat.
Proof.
  split; [split; reflexivity|].
  destruct (listing_strips_subscription_prefix Fixture.Script Fixture.plainEnv
              (Fixture.group [] []) (Fixture.listingState Fixture.twoSites)
              (Fixture.listingState Fixture.twoSites)
              (Fixture.listed Fixture.twoSites)
              (world (Fixture.listingState Fixture.twoSites))
              [Fixture.site "web-prod"; Fixture.site "db-prod"]
              eq_refl eq_refl eq_refl eq_refl eq_refl eq_refl)
    as [resources [st2 [H1 [H2 [H3 _]]]]].
  exists resources, st2. split; [exact H1|]. split; [exact H2|]. exact H3.
Defined.


(** * Further properties of the code *)

(** ** The characters of a metric name *)

Lemma all_bytes_app (p : ascii -> bool) (s t : string) :
  all_bytes p (s ++ t) = all_bytes p s && all_bytes p t.
Proof.
  induction s as [|c s IH]; simpl; [reflexivity|].
  now rewrite IH, andb_assoc.
Qed.

Lemma all_bytes_impl (p q : ascii -> bool) (s : string) :
  (forall c, p c = true -> q c = true) ->
  all_bytes p s = true -> all_bytes q s = true.
Proof.
  intro H. induction s as [|c s IH]; simpl; [reflexivity|].
  intro E. apply andb_true_iff in E. destruct E as [E1 E2].
  now rewrite (H c E1), IH.
Qed.

Lemma replaceInvalid_class (s : string) :
  forall k, all_bytes validMetricChar (replaceInvalid k s) = true.
Proof.
  induction s as [|c s IH]; intro k; [reflexivity|].
  cbn [replaceInvalid]. destruct k as [|k]; [|apply IH].
  destruct (byte_of c <? 128).
  - destruct (validMetricChar c) eqn:E; cbn [all_bytes]; rewrite IH.
    + now rewrite E.
    + reflexivity.
  - cbn [all_bytes]. now rewrite IH.
Qed.

Lemma suffix_class (k : Kind) : all_bytes validMetricChar (suffix k) = true.
Proof. destruct k; reflexivity. Qed.

Lemma metricNameOf_class_aux (lower : string -> string) (nameValue unit_ : string)
  (k : Kind) :
  all_bytes validMetricChar (metricNameOf lower nameValue unit_) = true
  /\ all_bytes validMetricChar (metricNameOf lower nameValue unit_ ++ suffix k) = true.
Proof.
  unfold metricNameOf, invalidMetricChars_ReplaceAllString.
  split; [apply replaceInvalid_class|].
  now rewrite all_bytes_app, replaceInvalid_class, suffix_class.
Qed.

(** X1: whatever the raw name and the unit are, and whatever the
    lowercasing of non-ASCII text does, the derived name consists of
    characters of [a-zA-Z0-9_:] only, and so does it with the suffix of a
    kind. *)
Theorem metricNameOf_class :
  forall (lower : string -> string) (nameValue unit_ : string) (k : Kind),
    all_bytes validMetricChar (metricNameOf lower nameValue unit_) = true
    /\ all_bytes validMetricChar (metricNameOf lower nameValue unit_ ++ suffix k) = true.
Proof.
  intros lower n u k. unfold metricNameOf, invalidMetricChars_ReplaceAllString.
  split; [apply replaceInvalid_class|].
  now rewrite all_bytes_app, replaceInvalid_class, suffix_class.
Qed.

Lemma replaceInvalid_fixed (s : string) :
  all_bytes validMetricChar s = true -> replaceInvalid 0 s = s.
Proof.
  induction s as [|c s IH]; simpl; [reflexivity|].
  intro E. apply andb_true_iff in E. destruct E as [E1 E2].
  rewrite (validMetricChar_ascii c E1), E1, (IH E2). reflexivity.
Qed.

(** X2: the replacement of invalid characters leaves a string of valid
    characters as it is, and so it changes nothing when it is applied a
    second time. *)
Theorem ReplaceAllString_idempotent :
  forall s : string,
    (all_bytes validMetricChar s = true -> invalidMetricChars_ReplaceAllString s = s)
    /\ invalidMetricChars_ReplaceAllString (invalidMetricChars_ReplaceAllString s)
       = invalidMetricChars_ReplaceAllString s.
Proof.
  intro s. unfold invalidMetricChars_ReplaceAllString. split.
  - apply replaceInvalid_fixed.
  - apply replaceInvalid_fixed, replaceInvalid_class.
Qed.

Lemma lower_byte_plain (c : ascii) :
  (byte_of c <? 128) = true -> plainLower (lower_byte c) = true.
Proof.
  destruct c as [[] [] [] [] [] [] [] []]; intro H;
    first [ discriminate H | vm_compute; reflexivity ].
Qed.

Lemma plain_valid_lower (c : ascii) :
  plainLower c = true -> validMetricChar c = true -> lowerMetricChar c = true.
Proof.
  destruct c as [[] [] [] [] [] [] [] []]; intros H1 H2;
    first [ discriminate H1 | discriminate H2 | vm_compute; reflexivity ].
Qed.

Lemma isASCII_all (s : string) :
  isASCII s = all_bytes (fun c => byte_of c <? 128) s.
Proof. induction s as [|c s IH]; simpl; [reflexivity | now rewrite IH]. Qed.

Lemma Replace_all (p : ascii -> bool) (s : string) (old : ascii) (new : string) :
  all_bytes p new = true -> all_bytes p s = true ->
  all_bytes p (Replace s old new) = true.
Proof.
  intros Hn. induction s as [|c s IH]; simpl; [reflexivity|].
  intro E. apply andb_true_iff in E. destruct E as [E1 E2].
  destruct (Ascii.eqb c old).
  - now rewrite all_bytes_app, Hn, IH.
  - simpl. now rewrite E1, IH.
Qed.

Lemma map_lower_plain (s : string) :
  isASCII s = true -> all_bytes plainLower (map_bytes lower_byte s) = true.
Proof.
  induction s as [|c s IH]; simpl; [reflexivity|].
  intro E. apply andb_true_iff in E. destruct E as [E1 E2].
  now rewrite (lower_byte_plain c E1), IH.
Qed.

Lemma replaceInvalid_lower (s : string) :
  all_bytes plainLower s = true ->
  all_bytes lowerMetricChar (replaceInvalid 0 s) = true.
Proof.
  induction s as [|c s IH]; simpl; [reflexivity|].
  intro E. apply andb_true_iff in E. destruct E as [E1 E2].
  assert (A : (byte_of c <? 128) = true)
    by (unfold plainLower in E1; now apply andb_true_iff in E1).
  rewrite A. destruct (validMetricChar c) eqn:V; simpl; rewrite (IH E2).
  - now rewrite (plain_valid_lower c E1 V).
  - reflexivity.
Qed.

(** X3: for a raw name and a unit of ASCII text, the derived name is lower
    case: its characters are of [a-z0-9_:] only. *)
Theorem metricNameOf_lower_case :
  forall (lower : string -> string) (nameValue unit_ : string),
    isASCII nameValue = true -> isASCII unit_ = true ->
    all_bytes lowerMetricChar (metricNameOf lower nameValue unit_) = true.
Proof.
  intros lower n u Hn Hu. unfold metricNameOf, invalidMetricChars_ReplaceAllString.
  apply replaceInvalid_lower.
  apply Replace_all; [reflexivity|].
  assert (A : isASCII (Replace n " " "_" ++ "_" ++ u) = true).
  { rewrite !isASCII_all, !all_bytes_app, <- !isASCII_all, Hu.
    rewrite isASCII_all. rewrite Replace_all; [reflexivity | reflexivity |].
    now rewrite <- isASCII_all. }
  unfold ToLower. rewrite A. now apply map_lower_plain.
Qed.

Lemma metricNameOf_lower_case_witness :
  (isASCII "Requests/Sec (HTTP)" = true /\ isASCII "Count/Second" = true)
  /\ all_bytes lowerMetricChar
       (metricNameOf (fun s => s) "Requests/Sec (HTTP)" "Count/Second") = true.
Proof.
  split; [split; reflexivity|].
  apply (metricNameOf_lower_case (fun s => s)); reflexivity.
Defined.

(** ** The leaf name of a resource *)

Lemma Split_no_sep (s : string) :
  all_bytes notSlash s = true -> Split s "/" = [s].
Proof.
  induction s as [|c s IH]; simpl; [reflexivity|].
  intro E. apply andb_true_iff in E. destruct E as [E1 E2].
  unfold notSlash in E1. apply negb_true_iff in E1. rewrite E1, (IH E2). reflexivity.
Qed.

Lemma last_Split_cons (c : ascii) (s d : string) :
  List.last (Split (String c s) "/") d
  = match Split s "/" with
    | [p] => if Ascii.eqb c "/" then p else String c p
    | _ => List.last (Split s "/") d
    end.
Proof.
  pose proof (Split_not_nil s "/") as Hne. cbn [Split].
  destruct (Split s "/") as [|p [|q qs]]; [now elim Hne| |];
    destruct (Ascii.eqb c "/"); reflexivity.
Qed.

Lemma leafName_class (resource : string) :
  all_bytes notSlash (leafName resource) = true.
Proof.
  unfold leafName. induction resource as [|c s IH]; [reflexivity|].
  rewrite last_Split_cons.
  pose proof (Split_not_nil s "/") as Hne.
  destruct (Split s "/") as [|p [|q qs]] eqn:E; [now elim Hne| |exact IH].
  simpl in IH. destruct (Ascii.eqb c "/") eqn:Ec; [exact IH|].
  simpl. unfold notSlash at 1. now rewrite Ec, IH.
Qed.

Lemma leafName_after_slash (parent leaf : string) :
  all_bytes notSlash leaf = true ->
  leafName (parent ++ String "/" leaf) = leaf.
Proof.
  intro H. unfold leafName. induction parent as [|c p IH].
  - simpl. rewrite (Split_no_sep leaf H). reflexivity.
  - change (String c p ++ String "/" leaf) with (String c (p ++ String "/" leaf)).
    rewrite last_Split_cons.
    destruct (Split (p ++ String "/" leaf) "/") as [|x [|y ys]] eqn:E; try exact IH.
    exfalso. clear IH. revert x E. induction p as [|c' p IHp]; intros x E.
    + simpl in E. rewrite (Split_no_sep leaf H) in E. discriminate.
    + change (String c' p ++ String "/" leaf) with (String c' (p ++ String "/" leaf)) in E.
      cbn [Split] in E. destruct (Ascii.eqb c' "/").
      * pose proof (Split_not_nil (p ++ String "/" leaf) "/").
        destruct (Split (p ++ String "/" leaf) "/"); [contradiction | discriminate].
      * destruct (Split (p ++ String "/" leaf) "/") as [|x' [|y' ys']] eqn:E';
          try discriminate.
        -- pose proof (Split_not_nil (p ++ String "/" leaf) "/"). congruence.
        -- now apply (IHp x').
Qed.

(** X4: the name the patterns of a group are matched against holds no
    "/"; it is the whole resource path when that holds none, and the text
    after the last "/" otherwise. *)
Theorem leafName_is_last_segment :
  forall resource : string,
    all_bytes notSlash (leafName resource) = true
    /\ (all_bytes notSlash resource = true -> leafName resource = resource)
    /\ (forall parent leaf,
           resource = parent ++ String "/" leaf ->
           all_bytes notSlash leaf = true ->
           leafName resource = leaf).
Proof.
  intro resource. split; [apply leafName_class | split].
  - intro H. unfold leafName. now rewrite (Split_no_sep resource H).
  - intros parent leaf E H. subst resource. now apply leafName_after_slash.
Qed.

(** ** Validation of the configuration *)

Lemma isValidAggregation_In (a : string) (valid : list string) :
  config.isValidAggregation a valid = true <-> In a valid.
Proof.
  induction valid as [|v rest IH]; simpl; [split; [discriminate | contradiction]|].
  destruct (String.eqb a v) eqn:E.
  - apply String.eqb_eq in E. subst. split; auto.
  - apply String.eqb_neq in E. rewrite IH. split; [auto|].
    intros [H|H]; [congruence | exact H].
Qed.

Lemma validateAggregations_None (aggregations : list string) :
  config.validateAggregations aggregations = None
  <-> Forall (fun a => In a config.validAggregations) aggregations.
Proof.
  induction aggregations as [|a rest IH]; [split; [constructor | reflexivity]|].
  cbn [config.validateAggregations].
  destruct (config.isValidAggregation a config.validAggregations) eqn:E; cbn [negb].
  - apply isValidAggregation_In in E. rewrite IH. split.
    + intro H. now constructor.
    + intro H. now inversion H.
  - split; [discriminate|]. intro H. inversion H as [|x l Hx Hl]; subst.
    apply isValidAggregation_In in Hx. congruence.
Qed.

(** X5: [validateAggregations] accepts a list exactly when each of its
    elements is one of "Total", "Average", "Minimum", "Maximum"; the error
    it returns otherwise names the first element that is none of them. *)
Theorem validateAggregations_first_invalid :
  forall aggregations : list string,
    (config.validateAggregations aggregations = None
     <-> Forall (fun a => In a ["Total"; "Average"; "Minimum"; "Maximum"]) aggregations)
    /\ (forall e, config.validateAggregations aggregations = Some e ->
          exists before a after,
            aggregations = List.app before (a :: after)
            /\ Forall (fun b => In b ["Total"; "Average"; "Minimum"; "Maximum"]) before
            /\ ~ In a ["Total"; "Average"; "Minimum"; "Maximum"]
            /\ e = config.InvalidAggregation a).
Proof.
  intro aggregations. split; [apply validateAggregations_None|].
  induction aggregations as [|a rest IH]; intros e H; [discriminate|].
  cbn [config.validateAggregations] in H.
  destruct (config.isValidAggregation a config.validAggregations) eqn:E; simpl in H.
  - destruct (IH e H) as [before [b [after [H1 [H2 [H3 H4]]]]]].
    exists (a :: before), b, after. subst rest. repeat split; try assumption.
    constructor; [|assumption]. now apply isValidAggregation_In.
  - exists [], a, rest. repeat split.
    + constructor.
    + intro Hin.
      apply (proj2 (isValidAggregation_In a config.validAggregations)) in Hin.
      congruence.
    + congruence.
Qed.

Lemma firstError_None {A} (check : A -> option config.verror) (l : list A) :
  config.firstError check l = None <-> Forall (fun t => check t = None) l.
Proof.
  induction l as [|t rest IH]; simpl; [split; [constructor | reflexivity]|].
  destruct (check t) eqn:E.
  - split; [discriminate|]. intro H. inversion H; congruence.
  - rewrite IH. split; [intro H; now constructor | intro H; now inversion H].
Qed.

Lemma firstError_Some {A} (check : A -> option config.verror) (l : list A)
  (e : config.verror) :
  config.firstError check l = Some e -> exists t, In t l /\ check t = Some e.
Proof.
  induction l as [|t rest IH]; simpl; [discriminate|].
  destruct (check t) eqn:E.
  - intro H. inversion H; subst. exists t. split; [now left | assumption].
  - intro H. destruct (IH H) as [t' [H1 H2]]. exists t'. split; [now right | assumption].
Qed.

Lemma len_zero (s : string) : (len s =? 0) = true <-> s = "".
Proof.
  unfold len. destruct s; simpl; split; try reflexivity; discriminate.
Qed.

Lemma HasPrefix_slash (s : string) :
  HasPrefix s "/" = true <-> exists rest, s = String "/" rest.
Proof.
  unfold HasPrefix. destruct s as [|c rest]; cbn [prefix].
  - split; [discriminate | intros [r H]; discriminate].
  - destruct (ascii_dec "/" c) as [E|E].
    + subst c. split; [intros _; now eexists | intros _; now destruct rest].
    + split; [discriminate|]. intros [r H]. inversion H. congruence.
Qed.

Lemma length_zero {A} (l : list A) : (List.length l =? 0)%nat = true <-> l = [].
Proof. destruct l; simpl; split; intro H; first [reflexivity | discriminate H]. Qed.

Section ValidateFacts.

Variable regexp_Compile : string -> option string.

Lemma validateRegexps_None (rxs : list string) :
  config.validateRegexps regexp_Compile rxs = None
  <-> Forall (fun rx => regexp_Compile rx = None) rxs.
Proof.
  induction rxs as [|rx rest IH]; simpl; [split; [constructor | reflexivity]|].
  destruct (regexp_Compile rx) eqn:E.
  - split; [discriminate|]. intro H. inversion H; congruence.
  - rewrite IH. split; [intro H; now constructor | intro H; now inversion H].
Qed.

Lemma validateResource_None (t : config.Resource) :
  config.validateResource t = None <-> config.validResource t.
Proof.
  unfold config.validateResource, config.validResource.
  destruct (config.validateAggregations (config.Aggregations t)) eqn:Ea.
  - split; [discriminate|]. intros [H _].
    apply validateAggregations_None in H. congruence.
  - apply validateAggregations_None in Ea.
    destruct (len (config.Name t) =? 0) eqn:En.
    + apply len_zero in En. split; [discriminate|]. intros [_ [H _]]. contradiction.
    + destruct (HasPrefix (config.Name t) "/") eqn:Ep; simpl.
      * destruct (List.length (config.Metrics t) =? 0)%nat eqn:Em.
        -- apply length_zero in Em. split; [discriminate|].
           intros [_ [_ [_ H]]]. contradiction.
        -- split; [|reflexivity]. intros _. repeat split; try assumption.
           ++ intro H. apply len_zero in H. congruence.
           ++ now apply HasPrefix_slash.
           ++ intro H. apply length_zero in H. congruence.
      * split; [discriminate|]. intros [_ [_ [H _]]].
        apply HasPrefix_slash in H. congruence.
Qed.

Lemma validateResourceGroup_None (t : config.ResourceGroup) :
  config.validateResourceGroup regexp_Compile t = None
  <-> config.validResourceGroup regexp_Compile t.
Proof.
  unfold config.validateResourceGroup, config.validResourceGroup.
  destruct (config.validateAggregations (config.GAggregations t)) eqn:Ea.
  - split; [discriminate|]. intros [H _].
    apply validateAggregations_None in H. congruence.
  - apply validateAggregations_None in Ea.
    destruct (len (config.GName t) =? 0) eqn:En.
    + apply len_zero in En. split; [discriminate|]. intros [_ [H _]]. contradiction.
    + destruct (List.length (config.GMetrics t) =? 0)%nat eqn:Em.
      * apply length_zero in Em. split; [discriminate|].
        intros [_ [_ [H _]]]. contradiction.
      * rewrite validateRegexps_None. split.
        -- intro H. repeat split; try assumption.
           ++ intro H'. apply len_zero in H'. congruence.
           ++ intro H'. apply length_zero in H'. congruence.
        -- intros [_ [_ [_ H]]]. exact H.
Qed.

(** X6: [Validate] accepts a configuration exactly when every resource has
    valid aggregations, a name that starts with "/" and at least one
    metric, and every resource group has valid aggregations, a name, at
    least one metric and include and exclude patterns that compile.  The
    resource types of a group play no part. *)
Theorem Validate_accepts_iff :
  forall c : config.Config,
    config.Validate regexp_Compile c = None
    <-> Forall config.validResource (config.Resources c)
        /\ Forall (config.validResourceGroup regexp_Compile) (config.ResourceGroups c).
Proof.
  intro c. unfold config.Validate.
  destruct (config.firstError config.validateResource (config.Resources c)) eqn:E1.
  - split; [discriminate|]. intros [H _].
    assert (H' : Forall (fun t => config.validateResource t = None) (config.Resources c)).
    { eapply Forall_impl; [|exact H]. intros t Ht. now apply validateResource_None. }
    apply firstError_None in H'. congruence.
  - apply firstError_None in E1. rewrite firstError_None. split.
    + intro H. split.
      * eapply Forall_impl; [|exact E1]. intros t Ht. now apply validateResource_None.
      * eapply Forall_impl; [|exact H]. intros t Ht. now apply validateResourceGroup_None.
    + intros [_ H]. eapply Forall_impl; [|exact H].
      intros t Ht. now apply validateResourceGroup_None.
Qed.

Lemma validateRegexps_Some (rxs : list string) (e : config.verror) :
  config.validateRegexps regexp_Compile rxs = Some e -> exists rx m, e = config.BadRegexp rx m.
Proof.
  induction rxs as [|rx rest IH]; simpl; [discriminate|].
  destruct (regexp_Compile rx) as [m|]; [|exact IH].
  intro H. inversion H. now exists rx, m.
Qed.

Lemma validateAggregations_Some (aggregations : list string) (e : config.verror) :
  config.validateAggregations aggregations = Some e ->
  exists a, e = config.InvalidAggregation a.
Proof.
  induction aggregations as [|a rest IH]; [discriminate|].
  cbn [config.validateAggregations].
  destruct (negb (config.isValidAggregation a config.validAggregations)); [|exact IH].
  intro H. inversion H. now exists a.
Qed.

(** X7: [Validate] never reports that a resource group lacks resource
    types: the test before that error repeats the test of the name, which
    has returned already. *)
Theorem Validate_never_GroupTypesMissing :
  forall c : config.Config,
    config.Validate regexp_Compile c <> Some config.GroupTypesMissing.
Proof.
  intros c H. unfold config.Validate in H.
  destruct (config.firstError config.validateResource (config.Resources c)) eqn:E1.
  - inversion H; subst. apply firstError_Some in E1. destruct E1 as [t [_ Ht]].
    unfold config.validateResource in Ht.
    destruct (config.validateAggregations (config.Aggregations t)) eqn:Ea.
    + inversion Ht; subst. apply validateAggregations_Some in Ea.
      destruct Ea as [a Ea]. discriminate.
    + destruct (len (config.Name t) =? 0); [discriminate|].
      destruct (negb (HasPrefix (config.Name t) "/")); [discriminate|].
      destruct (List.length (config.Metrics t) =? 0)%nat; discriminate.
  - apply firstError_Some in H. destruct H as [t [_ Ht]].
    unfold config.validateResourceGroup in Ht.
    destruct (config.validateAggregations (config.GAggregations t)) eqn:Ea.
    + inversion Ht; subst. apply validateAggregations_Some in Ea.
      destruct Ea as [a Ea]. discriminate.
    + destruct (len (config.GName t) =? 0); [discriminate|].
      destruct (List.length (config.GMetrics t) =? 0)%nat; [discriminate|].
      apply validateRegexps_Some in Ht. destruct Ht as [rx [m Ht]]. discriminate.
Qed.

Variable ReadFile : string -> string + string.
Variable yaml_Unmarshal : string -> string + config.Config.

Lemma ReloadConfig_keeps_valid (sc : config.SafeConfig) (confFile : string) :
  config.Validate regexp_Compile (config.C sc) = None ->
  config.Validate regexp_Compile
    (config.C (fst (config.ReloadConfig regexp_Compile ReadFile yaml_Unmarshal sc confFile)))
  = None.
Proof.
  intro H. unfold config.ReloadConfig.
  destruct (ReadFile confFile); [exact H|].
  destruct (yaml_Unmarshal s); [exact H|].
  destruct (config.Validate regexp_Compile c) eqn:E; [exact H | exact E].
Qed.

(** X8: the configuration a [SafeConfig] holds stays valid over any
    sequence of reloads, failed or not, that starts from a valid one; the
    empty configuration the program starts with is valid. *)
Theorem reloads_keep_valid :
  forall (confFiles : list string) (sc : config.SafeConfig),
    (config.Validate regexp_Compile (config.C sc) = None ->
     config.Validate regexp_Compile
       (config.C (config.reloads regexp_Compile ReadFile yaml_Unmarshal sc confFiles))
     = None)
    /\ config.Validate regexp_Compile
         (config.C (config.reloads regexp_Compile ReadFile yaml_Unmarshal
                      {| config.C := config.empty; config.ops := [] |} confFiles))
       = None.
Proof.
  assert (G : forall confFiles sc,
             config.Validate regexp_Compile (config.C sc) = None ->
             config.Validate regexp_Compile
               (config.C (config.reloads regexp_Compile ReadFile yaml_Unmarshal sc confFiles))
             = None).
  { induction confFiles as [|f rest IH]; intros sc H; simpl; [exact H|].
    apply IH. now apply ReloadConfig_keeps_valid. }
  intros confFiles sc. split; [apply G | apply G; reflexivity].
Qed.

End ValidateFacts.

(** ** The collector, the client and the filter, further *)

Section Further.

Variable W : Type.
Variable env : Env W.

Create HintDb frames discriminated.
#[local] Hint Resolve keeps_ret keeps_lift keeps_get_ac keeps_get_config
  ch_with_world ch_emit ch_put_ac trace_with_world trace_put_ac
  cfg_with_world cfg_emit cfg_put_ac ac_with_world ac_emit ac_send : frames.

Ltac frame :=
  repeat first
    [ progress cbv zeta
    | apply keeps_bind; [|intros ?]
    | match goal with
      | |- keeps _ (match ?x with _ => _ end) => destruct x
      | |- keeps _ (if ?x then _ else _) => destruct x
      end ];
  try unfold Now; auto with frames.

Lemma cfg_send (m : Metric) : keeps (@sc_C W) (send m).
Proof. intro st. reflexivity. Qed.

Lemma cfg_getMetricValue resource metricNames aggregations :
  keeps (@sc_C W) (getMetricValue env resource metricNames aggregations).
Proof. unfold getMetricValue, fetchMetricValue, DoMetrics, log_Printf. frame. Qed.

Lemma cfg_listFromResourceGroup resourceGroup resourceTypes :
  keeps (@sc_C W) (listFromResourceGroup env resourceGroup resourceTypes).
Proof. unfold listFromResourceGroup, fetchResourceList, DoList, log_Printf. frame. Qed.

Lemma keeps_for_range {A B} (f : State W -> B) (l : list A) (body : A -> M W unit) :
  (forall x, keeps f (body x)) -> keeps f (for_range l body).
Proof.
  intro H. induction l as [|x rest IH]; simpl; [apply keeps_ret|].
  apply keeps_bind; [apply H | intros _; exact IH].
Qed.

Lemma cfg_collectResource resource metricsStr aggregations :
  keeps (@sc_C W) (collectResource env resource metricsStr aggregations).
Proof.
  unfold collectResource. apply keeps_bind; [apply cfg_getMetricValue | intros r].
  unfold collectResponse, log_Printf.
  destruct (snd r); [apply cfg_emit|].
  destruct (is_nil (Value (fst r))); [apply cfg_emit|].
  apply keeps_bind; [apply keeps_lift | intros v0].
  apply keeps_bind; [apply keeps_lift | intros ts0].
  destruct (List.length (elems (Data ts0)) =? 0)%nat; [apply cfg_emit|].
  apply keeps_for_range. intro x. unfold collectValue, sendGauge.
  pose proof cfg_send. frame.
Qed.

Lemma emits_weaken (P Q : Metric -> Prop) {A} (c : M W A) :
  (forall m, P m -> Q m) -> emits P c -> emits Q c.
Proof.
  intros H Hc st. destruct (Hc st) as [news [H1 H2]]. exists news.
  split; [assumption|]. eapply Forall_impl; [exact H | exact H2].
Qed.

Lemma fromLastPoint_suffixed (entries : list MetricValue) (m : Metric) :
  fromLastPoint env entries m -> suffixedGauge m.
Proof.
  intros [e [d [k [_ [_ [_ [Hg Hn]]]]]]]. repeat split; try assumption.
  - rewrite Hn. unfold entryName.
    apply (proj2 (metricNameOf_class_aux (unicodeLower env) (NameValue (Name e)) (Unit e) k)).
  - now exists (entryName env e), k.
Qed.

Lemma emits_collectResource (resource metricsStr : string) (aggregations : list string) :
  emits suffixedGauge (collectResource env resource metricsStr aggregations).
Proof.
  unfold collectResource. apply emits_bind.
  - apply emits_keeps. apply ch_getMetricValue.
  - intro r. eapply emits_weaken; [|apply emits_collectResponse].
    apply fromLastPoint_suffixed.
Qed.

Lemma emits_collectGroup (target : config.ResourceGroup) :
  emits suffixedGauge (collectGroup env target).
Proof.
  unfold collectGroup. cbv zeta. apply emits_bind.
  - apply emits_keeps. apply ch_listFromResourceGroup.
  - intro r. destruct (snd r); [apply emits_keeps; apply keeps_ret|].
    apply emits_for_range. intros resource _. unfold collectGroupResource. cbv zeta.
    apply emits_bind_lift. intros name _.
    destruct (negb _ && negb _); [apply emits_keeps; apply keeps_ret|].
    destruct (matchAny env _ name); [apply emits_keeps; apply keeps_ret|].
    apply emits_collectResource.
Qed.

Lemma cfg_collectGroup (target : config.ResourceGroup) :
  keeps (@sc_C W) (collectGroup env target).
Proof.
  unfold collectGroup. cbv zeta.
  apply keeps_bind; [apply cfg_listFromResourceGroup | intro r].
  destruct (snd r); [apply keeps_ret|].
  apply keeps_for_range. intro resource. unfold collectGroupResource. cbv zeta.
  apply keeps_bind; [apply keeps_lift | intro name].
  destruct (negb _ && negb _); [apply keeps_ret|].
  destruct (matchAny env _ name); [apply keeps_ret | apply cfg_collectResource].
Qed.

(** X9: whatever the endpoints answer and however the scrape ends,
    [Collect] leaves the configuration as it is and only adds to what was
    sent before; every sample it sends is a gauge whose name is made of
    characters of [a-zA-Z0-9_:] and ends in one of "_total", "_average",
    "_min", "_max". *)
Theorem Collect_sends_suffixed_gauges :
  forall st : State W,
    sc_C (snd (Collect env st)) = sc_C st
    /\ exists news,
         ch (snd (Collect env st)) = List.app (ch st) news
         /\ Forall suffixedGauge news.
Proof.
  intro st. split.
  - revert st. change (keeps (@sc_C W) (Collect env)). unfold Collect.
    apply keeps_bind; [apply keeps_get_config | intro c].
    apply keeps_bind; [|intros _].
    + apply keeps_for_range. intro t. apply cfg_collectResource.
    + apply keeps_bind; [apply keeps_get_config | intro c'].
      apply keeps_for_range. apply cfg_collectGroup.
  - revert st. change (emits suffixedGauge (Collect env)). unfold Collect.
    apply emits_bind; [apply emits_keeps, keeps_get_config | intro c].
    apply emits_bind; [|intros _].
    + apply emits_for_range. intros t _. apply emits_collectResource.
    + apply emits_bind; [apply emits_keeps, keeps_get_config | intro c'].
      apply emits_for_range. intros t _. apply emits_collectGroup.
Qed.

(** X10: when [getMetricValue] returns an error, [collectResource] returns
    without panic, sends nothing and writes one log line that carries the
    resource and the error; nothing of the error reaches the caller. *)
Theorem collectResource_swallows_error :
  forall (resource metricsStr : string) (aggregations : list string)
         (st st1 : State W) (data : AzureMetricValueResponse) (e : error),
    getMetricValue env resource metricsStr aggregations st = (Done (data, Some e), st1) ->
    collectResource env resource metricsStr aggregations st
    = (Done tt,
       {| world := world st1; ac := ac st1; sc_C := sc_C st1; ch := ch st;
          trace := List.app (trace st1) [EvLog (LogFailedToGetMetrics resource e)] |}).
Proof.
  intros resource metricsStr aggregations st st1 data e H.
  unfold collectResource. rewrite (bind_done _ _ _ _ H). simpl.
  unfold log_Printf, emit. do 2 f_equal.
  pose proof (ch_getMetricValue W env resource metricsStr aggregations st) as K.
  rewrite H in K. exact K.
Qed.

(** X11: when the listing of a resource group returns an error, [Collect]
    skips the group: nothing is sent or queried for it, and the loop goes
    on with the next group from the state the listing left. *)
Theorem failed_listing_skips_group :
  forall (target : config.ResourceGroup) (rest : list config.ResourceGroup)
         (st st1 : State W) (resources : slice string) (e : error),
    listFromResourceGroup env (config.GName target) (config.ResourceTypes target) st
    = (Done (resources, Some e), st1) ->
    collectGroup env target st = (Done tt, st1)
    /\ for_range (target :: rest) (collectGroup env) st
       = for_range rest (collectGroup env) st1
    /\ ch st1 = ch st.
Proof.
  intros target rest st st1 resources e H.
  assert (G : collectGroup env target st = (Done tt, st1)).
  { unfold collectGroup. cbv zeta. rewrite (bind_done _ _ _ _ H). reflexivity. }
  split; [exact G | split].
  - cbn [for_range]. rewrite (bind_done _ _ _ _ G). reflexivity.
  - pose proof (ch_listFromResourceGroup W env (config.GName target)
                  (config.ResourceTypes target) st) as K.
    rewrite H in K. exact K.
Qed.

(** X12: over the resources of a listing, the loop of [Collect] does what
    [collectResource] does over the resources that pass the filter of the
    group, in the order of the listing. *)
Theorem group_loop_is_filter :
  forall (target : config.ResourceGroup) (metricsStr : string)
         (resources : list string) (st : State W),
    for_range resources (collectGroupResource env target metricsStr) st
    = for_range (filter (passesFilters env target) resources)
        (fun resource =>
           collectResource env resource metricsStr (config.GAggregations target)) st.
Proof.
  intros target metricsStr resources. induction resources as [|r rest IH]; intro st.
  - reflexivity.
  - cbn [for_range filter]. rewrite bind_run, collectGroupResource_filter.
    destruct (passesFilters env target r).
    + cbn [for_range]. rewrite bind_run.
      destruct (collectResource env r metricsStr (config.GAggregations target) st)
        as [[[]|msg] st']; [apply IH | reflexivity].
    + apply IH.
Qed.

(** *** The token, further *)

Ltac run_token :=
  unfold getAccessToken, PostForm, get_config, get_ac, put_ac, emit, with_world,
    bind, lift, ret; simpl.

(** X13: when the answer of the identity endpoint is a 200 with both
    strings but the expiry is no int64 in decimal, [getAccessToken] returns
    the error of [ParseInt] after it has stored the new bearer string: the
    client is left with the new token and the old expiry. *)
Theorem unparsable_expiry_tears_token :
  forall (st : State W) (resp : Response json) (w' : W)
         (members : list (string * json)) (token expires : string) (e : error),
    client_PostForm env (tokenTarget (sc_C st)) (tokenForm (sc_C st)) (world st)
    = (inr resp, w') ->
    StatusCode resp = 200 ->
    RespBody resp = BodyDocument (JObject members) ->
    map_get (Some members) "access_token" = JString token ->
    map_get (Some members) "expires_on" = JString expires ->
    ParseInt expires = inl e ->
    fst (getAccessToken env st) = Done (Some (ErrParseInt e))
    /\ ac (snd (getAccessToken env st))
       = {| accessToken := token;
            accessTokenExpiresOn := accessTokenExpiresOn (ac st) |}.
Proof.
  intros st resp w' members token expires e H Hs Hb Ha He Hp.
  run_token. rewrite H. simpl. rewrite Hs, Hb. simpl.
  rewrite Ha. simpl. rewrite He. simpl. rewrite Hp. split; reflexivity.
Qed.

(** X14: when the answer is a 200 whose document is null or an object in
    which "access_token" is missing or no string, [getAccessToken] panics
    and the client is as before; when the token is a string and
    "expires_on" is missing or no string, it panics after it has stored
    the new bearer string. *)
Theorem incomplete_token_document_panics :
  forall (st : State W) (resp : Response json) (w' : W) (doc : json) (data : gomap),
    client_PostForm env (tokenTarget (sc_C st)) (tokenForm (sc_C st)) (world st)
    = (inr resp, w') ->
    StatusCode resp = 200 ->
    RespBody resp = BodyDocument doc ->
    Unmarshal_map doc = inr data ->
    ((forall s, map_get data "access_token" <> JString s) ->
     fst (getAccessToken env st)
     = Panic "interface conversion: interface {} is not string"
     /\ ac (snd (getAccessToken env st)) = ac st)
    /\ (forall token,
          map_get data "access_token" = JString token ->
          (forall s, map_get data "expires_on" <> JString s) ->
          fst (getAccessToken env st)
          = Panic "interface conversion: interface {} is not string"
          /\ ac (snd (getAccessToken env st))
             = {| accessToken := token;
                  accessTokenExpiresOn := accessTokenExpiresOn (ac st) |}).
Proof.
  intros st resp w' doc data H Hs Hb Hu.
  run_token. rewrite H. simpl. rewrite Hs, Hb. simpl. rewrite Hu. split.
  - intro Hn. destruct (map_get data "access_token") eqn:Ea; simpl;
      try (split; reflexivity).
    now elim (Hn s).
  - intros token Ha Hn. rewrite Ha. simpl.
    destruct (map_get data "expires_on") eqn:Ee; simpl; try (split; reflexivity).
    now elim (Hn s).
Qed.



(** *** The queries, further *)

(** X16: when a refresh is due and the identity endpoint answers with a
    status other than 200, both queries return the refresh error around
    the status error, with the zero response or the nil list; the only
    request made is the one to the identity endpoint, and the client keeps
    its token. *)
Theorem failed_refresh_stops_query :
  forall (st : State W) (resp : Response json) (w' : W)
         (resource metricNames : string) (aggregations : list string)
         (resourceGroup : string) (resourceTypes : list string),
    needsRefresh (fst (time_Now env (world st))) (ac st) = true ->
    client_PostForm env (tokenTarget (sc_C st)) (tokenForm (sc_C st))
      (snd (time_Now env (world st)))
    = (inr resp, w') ->
    StatusCode resp <> 200 ->
    let st' := {| world := w'; ac := ac st; sc_C := sc_C st; ch := ch st;
                  trace := List.app (trace st)
                             [EvPostForm (tokenTarget (sc_C st)) (tokenForm (sc_C st))] |} in
    getMetricValue env resource metricNames aggregations st
    = (Done (zeroMetricValueResponse,
             Some (ErrRefreshing (ErrNot200 (StatusCode resp)))), st')
    /\ listFromResourceGroup env resourceGroup resourceTypes st
       = (Done (nil_slice, Some (ErrRefreshing (ErrNot200 (StatusCode resp)))), st').
Proof.
  intros st resp w' resource metricNames aggregations resourceGroup resourceTypes
    Hdue Hpost Hs st'.
  assert (R : refreshIfDue env st = (Done (Some (ErrNot200 (StatusCode resp))), st')).
  { unfold refreshIfDue, Now, with_world, get_ac, bind.
    destruct (time_Now env (world st)) as [now w1]. simpl in *. rewrite Hdue.
    run_token. rewrite Hpost. simpl.
    apply Z.eqb_neq in Hs. rewrite Hs. reflexivity. }
  split.
  - unfold getMetricValue. rewrite (bind_done _ _ _ _ R). reflexivity.
  - unfold listFromResourceGroup. rewrite (bind_done _ _ _ _ R). reflexivity.
Qed.

Lemma ac_fetchMetricValue resource metricNames aggregations :
  keeps (@ac W) (fetchMetricValue env resource metricNames aggregations).
Proof. unfold fetchMetricValue, DoMetrics, log_Printf. frame. Qed.

Lemma ac_fetchResourceList resourceGroup resourceTypes :
  keeps (@ac W) (fetchResourceList env resourceGroup resourceTypes).
Proof. unfold fetchResourceList, DoList, log_Printf. frame. Qed.

Lemma fetchMetricValue_carries resource metricNames aggregations (st : State W) :
  exists evs,
    trace (snd (fetchMetricValue env resource metricNames aggregations st))
    = List.app (trace st) evs
    /\ Forall (carries (accessToken (ac st))) evs.
Proof.
  unfold fetchMetricValue, DoMetrics, log_Printf, get_config, get_ac, emit,
    with_world, bind, lift, ret.
  destruct (GetTimes env (world st)) as [[endTime startTime] w1]. simpl.
  destruct (http_NewRequest env "GET" _); simpl.
  - exists []. rewrite app_nil_r. split; [reflexivity | constructor].
  - destruct (client_DoMetrics env _ w1) as [r w2]. simpl.
    eexists [_; _]. split.
    + destruct r as [e|resp]; simpl; [now rewrite <- app_assoc|].
      destruct (negb (StatusCode resp =? 200)); simpl; [now rewrite <- app_assoc|].
      destruct (RespBody resp); simpl; now rewrite <- app_assoc.
    + repeat constructor.
Qed.

Lemma fetchResourceList_carries resourceGroup resourceTypes (st : State W) :
  exists evs,
    trace (snd (fetchResourceList env resourceGroup resourceTypes st))
    = List.app (trace st) evs
    /\ Forall (carries (accessToken (ac st))) evs.
Proof.
  unfold fetchResourceList, DoList, log_Printf, get_config, get_ac, emit,
    with_world, bind, lift, ret. simpl.
  destruct (http_NewRequest env "GET" _); simpl.
  - exists []. rewrite app_nil_r. split; [reflexivity | constructor].
  - destruct (client_DoList env _ (world st)) as [r w2]. simpl.
    eexists [_; _]. split.
    + destruct r as [e|resp]; simpl; [now rewrite <- app_assoc|].
      destruct (negb (StatusCode resp =? 200)); simpl; [now rewrite <- app_assoc|].
      destruct (RespBody resp); simpl; try now rewrite <- app_assoc.
      destruct (stripPrefixes _ _ _); simpl; now rewrite <- app_assoc.
    + repeat constructor.
Qed.

(** The shape of both queries: the refresh, then a fetch that keeps the
    client and sends its requests with the token of the client. *)
Lemma query_carries {A} (onError : error -> A) (fetch : M W A) (st : State W) :
  keeps (@ac W) fetch ->
  (forall s, exists evs,
      trace (snd (fetch s)) = List.app (trace s) evs
      /\ Forall (carries (accessToken (ac s))) evs) ->
  let st' := snd (bind (refreshIfDue env)
                    (fun refresh =>
                       match refresh with
                       | Some e => ret (onError e)
                       | None => fetch
                       end) st) in
  exists refresh evs,
    trace st' = List.app (trace st) (List.app refresh evs)
    /\ (refresh = []
        \/ refresh = [EvPostForm (tokenTarget (sc_C st)) (tokenForm (sc_C st))])
    /\ Forall (carries (accessToken (ac st'))) evs.
Proof.
  intros Hac Hc st'. subst st'. rewrite bind_run.
  pose proof (refreshIfDue_trace W env st) as T.
  set (pre := if needsRefresh (fst (time_Now env (world st))) (ac st)
              then [EvPostForm (tokenTarget (sc_C st)) (tokenForm (sc_C st))]
              else []) in *.
  assert (Hpre : pre = [] \/
                 pre = [EvPostForm (tokenTarget (sc_C st)) (tokenForm (sc_C st))])
    by (subst pre; destruct (needsRefresh _ _); auto).
  destruct (refreshIfDue env st) as [[[e|]|msg] st1]; simpl in *.
  - exists pre, []. rewrite app_nil_r. repeat split; auto.
  - destruct (Hc st1) as [evs [H P]]. exists pre, evs.
    rewrite H, T, <- app_assoc, (Hac st1). repeat split; auto.
  - exists pre, []. rewrite app_nil_r. repeat split; auto.
Qed.

(** X17: every request [getMetricValue] and [listFromResourceGroup] make
    after the refresh step carries, as its bearer token, the token the
    client holds when the function ends: a token that has just been
    refreshed is the one that is used. *)
Theorem requests_carry_current_token :
  forall (st : State W) (resource metricNames : string) (aggregations : list string)
         (resourceGroup : string) (resourceTypes : list string),
    (exists refresh evs,
        trace (snd (getMetricValue env resource metricNames aggregations st))
        = List.app (trace st) (List.app refresh evs)
        /\ (refresh = []
            \/ refresh = [EvPostForm (tokenTarget (sc_C st)) (tokenForm (sc_C st))])
        /\ Forall (carries
                     (accessToken
                        (ac (snd (getMetricValue env resource metricNames
                                    aggregations st))))) evs)
    /\ (exists refresh evs,
           trace (snd (listFromResourceGroup env resourceGroup resourceTypes st))
           = List.app (trace st) (List.app refresh evs)
           /\ (refresh = []
               \/ refresh = [EvPostForm (tokenTarget (sc_C st)) (tokenForm (sc_C st))])
           /\ Forall (carries
                        (accessToken
                           (ac (snd (listFromResourceGroup env resourceGroup
                                       resourceTypes st))))) evs).
Proof.
  intros st resource metricNames aggregations resourceGroup resourceTypes. split.
  - apply (query_carries
             (fun e => (zeroMetricValueResponse, Some (ErrRefreshing e)))
             (fetchMetricValue env resource metricNames aggregations) st).
    + apply ac_fetchMetricValue.
    + apply fetchMetricValue_carries.
  - apply (query_carries
             (fun e => (@nil_slice string, Some (ErrRefreshing e)))
             (fetchResourceList env resourceGroup resourceTypes) st).
    + apply ac_fetchResourceList.
    + apply fetchResourceList_carries.
Qed.

Lemma returns_bind {A B} (P : B -> Prop) (c : M W A) (k : A -> M W B) :
  (forall a, returns P (k a)) -> returns P (bind c k).
Proof.
  intros H st b st' E. rewrite bind_run in E.
  destruct (c st) as [[a|msg] s]; [exact (H a s b st' E) | discriminate].
Qed.

Lemma returns_ret {A} (P : A -> Prop) (a : A) : P a -> returns P (ret (W:=W) a).
Proof. intros H st b st' E. inversion E; subst. exact H. Qed.

Ltac returning :=
  repeat first
    [ progress cbv zeta
    | apply returns_bind; intros ?
    | match goal with
      | |- returns _ (match ?x with _ => _ end) => destruct x
      | |- returns _ (if ?x then _ else _) => destruct x
      end ];
  try (apply returns_ret; simpl; first [reflexivity | congruence | tauto]).

(** X18: whenever [getMetricValue] returns an error, the response it
    returns with it is the zero value, and whenever [listFromResourceGroup]
    returns an error, the list it returns with it is nil: no part of a
    failed answer is handed on. *)
Theorem error_comes_with_zero_value :
  (forall (resource metricNames : string) (aggregations : list string)
          (st st' : State W) (data : AzureMetricValueResponse) (e : error),
      getMetricValue env resource metricNames aggregations st = (Done (data, Some e), st') ->
      data = zeroMetricValueResponse)
  /\ (forall (resourceGroup : string) (resourceTypes : list string)
             (st st' : State W) (resources : slice string) (e : error),
         listFromResourceGroup env resourceGroup resourceTypes st
         = (Done (resources, Some e), st') ->
         resources = nil_slice).
Proof.
  split.
  - intros resource metricNames aggregations st st' data e H.
    assert (R : returns (fun r : AzureMetricValueResponse * option error =>
                           snd r <> None -> fst r = zeroMetricValueResponse)
                  (getMetricValue env resource metricNames aggregations)).
    { unfold getMetricValue, fetchMetricValue. returning. }
    apply (R st (data, Some e) st' H). discriminate.
  - intros resourceGroup resourceTypes st st' resources e H.
    assert (R : returns (fun r : slice string * option error =>
                           snd r <> None -> fst r = nil_slice)
                  (listFromResourceGroup env resourceGroup resourceTypes)).
    { unfold listFromResourceGroup, fetchResourceList. returning. }
    apply (R st (resources, Some e) st' H). discriminate.
Qed.

Lemma safe_bind {A B} (c : M W A) (k : A -> M W B) :
  safe c -> (forall a, safe (k a)) -> safe (bind c k).
Proof.
  intros Hc Hk st. destruct (Hc st) as [a [s E]].
  rewrite (bind_done _ _ _ _ E). apply Hk.
Qed.

Lemma safe_ret {A} (a : A) : safe (ret (W:=W) a).
Proof. intro st. now exists a, st. Qed.

Lemma safe_with_world {A} (g : W -> A * W) : safe (with_world g).
Proof.
  intro st. unfold with_world. destruct (g (world st)) as [a w]. now eexists _, _.
Qed.

Lemma safe_emit (e : Event) : safe (emit (W:=W) e).
Proof. intro st. now eexists _, _. Qed.

Lemma safe_get_ac : safe (@get_ac W).
Proof. intro st. now eexists _, _. Qed.

Lemma safe_get_config : safe (@get_config W).
Proof. intro st. now eexists _, _. Qed.

Lemma safe_fetchMetricValue resource metricNames aggregations :
  safe (fetchMetricValue env resource metricNames aggregations).
Proof.
  unfold fetchMetricValue, DoMetrics, log_Printf.
  repeat first
    [ progress cbv zeta
    | apply safe_bind; [|intros ?]
    | match goal with
      | |- safe (match ?x with _ => _ end) => destruct x
      | |- safe (if ?x then _ else _) => destruct x
      end ];
  first [ apply safe_ret | apply safe_with_world | apply safe_emit
        | apply safe_get_ac | apply safe_get_config ].
Qed.

(** X19: [getMetricValue] panics only where the refresh of the token
    does; with a token that is not due it returns, and the client is as
    before. *)
Theorem getMetricValue_panics_only_in_refresh :
  forall (resource metricNames : string) (aggregations : list string) (st : State W),
    (forall msg st',
        getMetricValue env resource metricNames aggregations st = (Panic msg, st') ->
        refreshIfDue env st = (Panic msg, st'))
    /\ (needsRefresh (fst (time_Now env (world st))) (ac st) = false ->
        exists r st',
          getMetricValue env resource metricNames aggregations st = (Done r, st')
          /\ ac st' = ac st).
Proof.
  intros resource metricNames aggregations st. split.
  - intros msg st'. unfold getMetricValue. rewrite bind_run.
    destruct (refreshIfDue env st) as [[[e|]|m] s1].
    + discriminate.
    + destruct (safe_fetchMetricValue resource metricNames aggregations s1)
        as [a [s2 E]].
      rewrite E. discriminate.
    + intro H. inversion H. reflexivity.
  - intro Hdue.
    assert (R : exists w1, refreshIfDue env st
                           = (Done None,
                              {| world := w1; ac := ac st; sc_C := sc_C st;
                                 ch := ch st; trace := trace st |})).
    { unfold refreshIfDue, Now, with_world, get_ac, bind.
      destruct (time_Now env (world st)) as [now w1]. simpl in *. rewrite Hdue.
      now exists w1. }
    destruct R as [w1 R]. unfold getMetricValue. rewrite (bind_done _ _ _ _ R).
    destruct (safe_fetchMetricValue resource metricNames aggregations
                {| world := w1; ac := ac st; sc_C := sc_C st; ch := ch st;
                   trace := trace st |}) as [a [s2 E]].
    exists a, s2. split; [exact E|].
    pose proof (ac_fetchMetricValue resource metricNames aggregations
                  {| world := w1; ac := ac st; sc_C := sc_C st; ch := ch st;
                     trace := trace st |}) as K.
    rewrite E in K. exact K.
Qed.

(** *** The listing, further *)

Lemma slice_from_in_bounds (s : string) (n : nat) :
  (n <= String.length s)%nat -> slice_from s (Z.of_nat n) = Some (from n s).
Proof.
  intro H. unfold slice_from, from, len.
  destruct (Z.of_nat n <? 0) eqn:E1; [apply Z.ltb_lt in E1; lia|].
  destruct (Z.of_nat (String.length s) <? Z.of_nat n) eqn:E2;
    [apply Z.ltb_lt in E2; lia|].
  simpl. now rewrite Nat2Z.id.
Qed.

Lemma slice_from_out_of_bounds (s : string) (n : Z) :
  len s < n -> slice_from s n = None.
Proof.
  intro H. unfold slice_from.
  destruct (len s <? n) eqn:E; [now rewrite orb_true_r|].
  apply Z.ltb_ge in E. lia.
Qed.

(** X20: the loop of [listFromResourceGroup] cuts the first
    [len(subscription) + 1] bytes off every identifier, whatever they are,
    and returns as many resources as there are identifiers (nil when
    there are none); it panics as soon as one identifier is shorter than
    that. *)
Theorem stripPrefixes_by_length :
  forall (subscription : string) (results : list ResourceEntry),
    (Forall (fun r => len subscription + 1 <= len (Id r)) results ->
     exists resources,
       stripPrefixes subscription results nil_slice = Done resources
       /\ elems resources
          = map (fun r => from (S (String.length subscription)) (Id r)) results
       /\ is_nil resources = match results with [] => true | _ => false end)
    /\ (Exists (fun r => len (Id r) < len subscription + 1) results ->
        stripPrefixes subscription results nil_slice = Panic "slice bounds out of range").
Proof.
  intros subscription results.
  assert (N : len subscription + 1 = Z.of_nat (S (String.length subscription)))
    by (unfold len; lia).
  split.
  - assert (G : forall results acc,
               Forall (fun r => len subscription + 1 <= len (Id r)) results ->
               stripPrefixes subscription results acc
               = Done (match results with
                       | [] => acc
                       | _ => mk_slice
                                (List.app (elems acc)
                                   (map (fun r => from (S (String.length subscription)) (Id r))
                                      results))
                       end)).
    { clear results. induction results as [|r rest IH]; intros acc H; [reflexivity|].
      inversion H as [|x l Hr Hrest]; subst. cbn [stripPrefixes]. rewrite N.
      rewrite slice_from_in_bounds by (unfold len in Hr; lia).
      rewrite (IH _ Hrest). unfold append. simpl elems.
      destruct rest; simpl; [reflexivity|]. now rewrite <- app_assoc. }
    intro H. rewrite (G results nil_slice H).
    destruct results; eexists; repeat split; reflexivity.
  - assert (G : forall results acc,
               Exists (fun r => len (Id r) < len subscription + 1) results ->
               stripPrefixes subscription results acc = Panic "slice bounds out of range").
    { clear results. induction results as [|r rest IH]; intros acc H;
        [inversion H|].
      cbn [stripPrefixes].
      destruct (slice_from (Id r) (len subscription + 1)) eqn:E; [|reflexivity].
      inversion H as [x l Hr|x l Hrest]; subst.
      - rewrite slice_from_out_of_bounds in E by exact Hr. discriminate.
      - now apply IH. }
    apply G.
Qed.

(** *** Validated patterns at scrape time *)

(** X21: [regexp.MatchString] compiles its pattern and fails only if that
    fails.  Under this, for a resource group of a configuration that
    [Validate] has accepted, no evaluation of an include or exclude pattern
    fails, against any name, and each pattern loop of [Collect] is the
    disjunction of what the evaluations report. *)
Theorem validated_patterns_never_fail :
  forall (regexp_Compile : string -> option string) (c : config.Config)
         (target : config.ResourceGroup) (name : string),
    (forall rx s, regexp_Compile rx = None -> snd (regexp_MatchString env rx s) = None) ->
    config.Validate regexp_Compile c = None ->
    In target (config.ResourceGroups c) ->
    (forall rx,
        In rx (List.app (config.ResourceInclude target) (config.ResourceExclude target)) ->
        evalFails env rx name = false)
    /\ matchAny env (config.ResourceInclude target) name
       = existsb (fun rx => fst (regexp_MatchString env rx name))
           (config.ResourceInclude target)
    /\ matchAny env (config.ResourceExclude target) name
       = existsb (fun rx => fst (regexp_MatchString env rx name))
           (config.ResourceExclude target).
Proof.
  intros compile c target name Hlib Hv Hin.
  assert (Hc : forall rx,
             In rx (List.app (config.ResourceInclude target)
                      (config.ResourceExclude target)) ->
             compile rx = None).
  { unfold config.Validate in Hv.
    destruct (config.firstError config.validateResource (config.Resources c));
      [discriminate|].
    apply firstError_None in Hv. rewrite Forall_forall in Hv.
    specialize (Hv target Hin). apply validateResourceGroup_None in Hv.
    destruct Hv as [_ [_ [_ Hv]]]. rewrite Forall_forall in Hv. exact Hv. }
  assert (Hf : forall rx,
             In rx (List.app (config.ResourceInclude target)
                      (config.ResourceExclude target)) ->
             evalFails env rx name = false).
  { intros rx Hrx. unfold evalFails. now rewrite (Hlib rx name (Hc rx Hrx)). }
  assert (G : forall rxs,
             (forall rx, In rx rxs -> evalFails env rx name = false) ->
             matchAny env rxs name
             = existsb (fun rx => fst (regexp_MatchString env rx name)) rxs).
  { intros rxs H. rewrite matchAny_existsb.
    induction rxs as [|rx rest IH]; simpl; [reflexivity|].
    rewrite IH by (intros r Hr; apply H; now right). f_equal.
    specialize (H rx (or_introl eq_refl)). unfold evalFails in H. unfold matches.
    destruct (regexp_MatchString env rx name) as [m [e|]]; simpl in *;
      [discriminate | reflexivity]. }
  split; [exact Hf | split; apply G; intros rx Hrx; apply Hf; apply in_or_app; auto].
Qed.

(** *** Paths *)



Lemma for_range_app {A} (l1 l2 : list A) (body : A -> M W unit) (st : State W) :
  for_range (List.app l1 l2) body st
  = bind (for_range l1 body) (fun _ => for_range l2 body) st.
Proof.
  revert st. induction l1 as [|x rest IH]; intro st; simpl; [reflexivity|].
  rewrite !bind_run. destruct (body x st) as [[[]|msg] s]; [|reflexivity].
  rewrite IH, bind_run. reflexivity.
Qed.

(** X24: a panic in [collectResource] is not caught: when the explicit
    resources before one have been collected and that one panics,
    [Collect] ends in the same panic and state, and neither the resources
    after it nor any resource group is visited. *)
Theorem panic_ends_Collect :
  forall (st st1 st2 : State W) (before after : list config.Resource)
         (t : config.Resource) (msg : string),
    config.Resources (sc_C st) = List.app before (t :: after) ->
    for_range before
      (fun target =>
         collectResource env (config.Name target) (Join (config.Metrics target) ",")
           (config.Aggregations target)) st
    = (Done tt, st1) ->
    collectResource env (config.Name t) (Join (config.Metrics t) ",")
      (config.Aggregations t) st1
    = (Panic msg, st2) ->
    Collect env st = (Panic msg, st2).
Proof.
  intros st st1 st2 before after t msg Hr Hb Ht.
  unfold Collect. rewrite (bind_done _ _ _ _ (a:=sc_C st) (st':=st)) by reflexivity.
  rewrite bind_run. cbv zeta. rewrite Hr, for_range_app, bind_run, Hb.
  cbn [for_range]. rewrite bind_run, Ht. reflexivity.
Qed.

End Further.

(** ** Instances of the further properties that have hypotheses *)

(** X10 at a metrics endpoint that answers 500. *)
Lemma collectResource_swallows_error_witness :
  getMetricValue Fixture.plainEnv Fixture.vm "Percentage CPU" ["Average"]
    (Fixture.listingState [])
  = (Done (zeroMetricValueResponse, Some (ErrMetricsStatus 500)),
     snd (getMetricValue Fixture.plainEnv Fixture.vm "Percentage CPU" ["Average"]
            (Fixture.listingState [])))
  /\ fst (collectResource Fixture.plainEnv Fixture.vm "Percentage CPU" ["Average"]
            (Fixture.listingState []))
     = Done tt
  /\ ch (snd (collectResource Fixture.plainEnv Fixture.vm "Percentage CPU" ["Average"]
                (Fixture.listingState [])))
     = [].
Proof.
  split; [reflexivity|].
  rewrite (collectResource_swallows_error Fixture.Script Fixture.plainEnv Fixture.vm
             "Percentage CPU" ["Average"] (Fixture.listingState [])
             (snd (getMetricValue Fixture.plainEnv Fixture.vm "Percentage CPU" ["Average"]
                     (Fixture.listingState [])))
             zeroMetricValueResponse (ErrMetricsStatus 500) eq_refl).
  split; reflexivity.
Defined.

(** X11 at a listing endpoint that answers 500. *)
Lemma failed_listing_skips_group_witness :
  listFromResourceGroup Fixture.plainEnv "g" ["Microsoft.Compute/virtualMachines"]
    (Fixture.freshState None)
  = (Done (nil_slice, Some (ErrResourceGroupStatus 500)),
     snd (listFromResourceGroup Fixture.plainEnv "g" ["Microsoft.Compute/virtualMachines"]
            (Fixture.freshState None)))
  /\ for_range [Fixture.webGroup; Fixture.webGroup] (collectGroup Fixture.plainEnv)
       (Fixture.freshState None)
     = for_range [Fixture.webGroup] (collectGroup Fixture.plainEnv)
         (snd (listFromResourceGroup Fixture.plainEnv "g"
                 ["Microsoft.Compute/virtualMachines"] (Fixture.freshState None))).
Proof.
  split; [reflexivity|].
  exact (proj1 (proj2 (failed_listing_skips_group Fixture.Script Fixture.plainEnv
                         Fixture.webGroup [Fixture.webGroup] (Fixture.freshState None)
                         (snd (listFromResourceGroup Fixture.plainEnv "g"
                                 ["Microsoft.Compute/virtualMachines"]
                                 (Fixture.freshState None)))
                         nil_slice (ErrResourceGroupStatus 500) eq_refl))).
Defined.

(** X13 at an answer whose expiry is no number. *)
Lemma unparsable_expiry_tears_token_witness :
  ParseInt "soon" = inl (Foreign "strconv.ParseInt: invalid syntax")
  /\ fst (getAccessToken Fixture.plainEnv
            (Fixture.identityState (Fixture.ok (Fixture.tokenDocument "token-1" "soon"))))
     = Done (Some (ErrParseInt (Foreign "strconv.ParseInt: invalid syntax")))
  /\ ac (snd (getAccessToken Fixture.plainEnv
                (Fixture.identityState
                   (Fixture.ok (Fixture.tokenDocument "token-1" "soon")))))
     = {| accessToken := "token-1"; accessTokenExpiresOn := time.Unix 1700000000 |}.
Proof.
  split; [reflexivity|].
  exact (unparsable_expiry_tears_token Fixture.Script Fixture.plainEnv
           (Fixture.identityState (Fixture.ok (Fixture.tokenDocument "token-1" "soon")))
           {| StatusCode := 200;
              RespBody := BodyDocument (Fixture.tokenDocument "token-1" "soon") |}
           (world (Fixture.identityState
                     (Fixture.ok (Fixture.tokenDocument "token-1" "soon"))))
           [("token_type", JString "Bearer"); ("expires_on", JString "soon");
            ("access_token", JString "token-1")]
           "token-1" "soon" (Foreign "strconv.ParseInt: invalid syntax")
           eq_refl eq_refl eq_refl eq_refl eq_refl eq_refl).
Defined.

(** X14 at an answer that holds an error instead of a token. *)
Lemma incomplete_token_document_panics_witness :
  (forall s, map_get (Some [("error", JString "invalid_client")]) "access_token"
             <> JString s)
  /\ fst (getAccessToken Fixture.plainEnv
            (Fixture.identityState
               (Fixture.ok (JObject [("error", JString "invalid_client")]))))
     = Panic "interface conversion: interface {} is not string"
  /\ ac (snd (getAccessToken Fixture.plainEnv
                (Fixture.identityState
                   (Fixture.ok (JObject [("error", JString "invalid_client")])))))
     = ac (Fixture.identityState
             (Fixture.ok (JObject [("error", JString "invalid_client")]))).
Proof.
  assert (H : forall s, map_get (Some [("error", JString "invalid_client")]) "access_token"
                        <> JString s)
    by (intros s E; vm_compute in E; discriminate E).
  split; [exact H|].
  exact (proj1 (incomplete_token_document_panics Fixture.Script Fixture.plainEnv
                  (Fixture.identityState
                     (Fixture.ok (JObject [("error", JString "invalid_client")])))
                  {| StatusCode := 200;
                     RespBody := BodyDocument (JObject [("error", JString "invalid_client")]) |}
                  (world (Fixture.identityState
                            (Fixture.ok (JObject [("error", JString "invalid_client")]))))
                  (JObject [("error", JString "invalid_client")])
                  (Some [("error", JString "invalid_client")])
                  eq_refl eq_refl eq_refl eq_refl) H).
Defined.


(** X16 at a token that is due and an identity endpoint that answers 401. *)
Lemma failed_refresh_stops_query_witness :
  (needsRefresh
     (fst (time_Now Fixture.plainEnv
             (world (Fixture.identityState (inr Fixture.unauthorized)))))
     (ac (Fixture.identityState (inr Fixture.unauthorized))) = true
   /\ StatusCode Fixture.unauthorized <> 200)
  /\ fst (getMetricValue Fixture.plainEnv Fixture.vm "Percentage CPU" []
            (Fixture.identityState (inr Fixture.unauthorized)))
     = Done (zeroMetricValueResponse, Some (ErrRefreshing (ErrNot200 401))).
Proof.
  assert (H1 : needsRefresh
                 (fst (time_Now Fixture.plainEnv
                         (world (Fixture.identityState (inr Fixture.unauthorized)))))
                 (ac (Fixture.identityState (inr Fixture.unauthorized))) = true)
    by reflexivity.
  assert (H2 : StatusCode Fixture.unauthorized <> 200) by discriminate.
  split; [split; assumption|].
  rewrite (proj1 (failed_refresh_stops_query Fixture.Script Fixture.plainEnv
                    (Fixture.identityState (inr Fixture.unauthorized))
                    Fixture.unauthorized
                    (world (Fixture.identityState (inr Fixture.unauthorized)))
                    Fixture.vm "Percentage CPU" [] "g" [] H1 eq_refl H2)).
  reflexivity.
Defined.

Lemma fixture_fails_only_uncompiled (rx s : string) :
  Fixture.Compile rx = None ->
  snd (regexp_MatchString Fixture.plainEnv rx s) = None.
Proof.
  unfold Fixture.Compile. simpl. unfold Fixture.MatchString.
  destruct (String.eqb rx "("); [discriminate|]. intros _.
  repeat match goal with
         | |- context [let '(_, _) := ?x in _] => destruct x
         end.
  destruct (Fixture.all_plain _); reflexivity.
Qed.

(** X21 at a validated configuration with one group. *)
Lemma validated_patterns_never_fail_witness :
  (config.Validate Fixture.Compile Fixture.groupsCfg = None
   /\ In Fixture.webGroup (config.ResourceGroups Fixture.groupsCfg))
  /\ forall rx,
       In rx ["^web-"; "-staging$"] ->
       evalFails Fixture.plainEnv rx "web-prod" = false.
Proof.
  assert (H1 : config.Validate Fixture.Compile Fixture.groupsCfg = None) by reflexivity.
  assert (H2 : In Fixture.webGroup (config.ResourceGroups Fixture.groupsCfg))
    by (left; reflexivity).
  split; [split; assumption|].
  exact (proj1 (validated_patterns_never_fail Fixture.Script Fixture.plainEnv
                  Fixture.Compile Fixture.groupsCfg Fixture.webGroup "web-prod"
                  fixture_fails_only_uncompiled H1 H2)).
Defined.


(** X24 at a metrics endpoint that answers with an empty value list: the
    first of two resources panics. *)
Lemma panic_ends_Collect_witness :
  collectResource Fixture.plainEnv (config.Name Fixture.vmResource)
    (Join (config.Metrics Fixture.vmResource) ",")
    (config.Aggregations Fixture.vmResource) Fixture.emptyListState
  = (Panic "index out of range",
     snd (collectResource Fixture.plainEnv (config.Name Fixture.vmResource)
            (Join (config.Metrics Fixture.vmResource) ",")
            (config.Aggregations Fixture.vmResource) Fixture.emptyListState))
  /\ Collect Fixture.plainEnv Fixture.emptyListState
     = (Panic "index out of range",
        snd (collectResource Fixture.plainEnv (config.Name Fixture.vmResource)
               (Join (config.Metrics Fixture.vmResource) ",")
               (config.Aggregations Fixture.vmResource) Fixture.emptyListState)).
Proof.
  split; [reflexivity|].
  exact (panic_ends_Collect Fixture.Script Fixture.plainEnv Fixture.emptyListState
           Fixture.emptyListState
           (snd (collectResource Fixture.plainEnv (config.Name Fixture.vmResource)
                   (Join (config.Metrics Fixture.vmResource) ",")
                   (config.Aggregations Fixture.vmResource) Fixture.emptyListState))
           [] [Fixture.vmResource] Fixture.vmResource "index out of range"
           eq_refl eq_refl eq_refl).
Defined.
